(** * Batch intake, staging and promotion pipeline

    A shallow embedding of [Pipelines/functions/v2_registrar_archivo.py] and
    [Pipelines/functions/tabla_temporal.py].

    The two Python modules are glue over the BigQuery and Cloud Storage
    clients.  The clients are modelled by an explicit [World]: the buckets,
    the warehouse tables, the clock, what has been printed, which client
    calls were issued, and a schedule of service faults.  Python exceptions
    are the [Raise] outcome of a state-and-exception monad [M];
    [try]/[except] is [try_except].

    What is assumed of the services:
    - constructing a client and closing it perform no request;
    - every request takes the next entry of the fault schedule; a request
      that raises has no effect on the buckets and the tables;
    - an SQL statement runs as one unit;
    - [insert_rows_json] inserts nothing when it reports row errors.
    The decoders of [json] and [pandas] are not part of the pipeline and are
    taken as an interface, [Decoders].  So are the constructors of the
    client library, [Clients]: whether a client can be built and closed, and
    which table ids and schemas [bigquery.Table] accepts, is decided by the
    library and the machine it runs on.  [crear_tabla_temporal] and
    [cargar_archivos_en_tabla_temporal] go through this interface; the other
    functions are modelled from the point where their clients exist. *)

From stdpp Require Import gmap strings list fin_maps.
From Stdlib Require Import ZArith Ascii.

Set Warnings "-register-all".

(** ** Python values *)

(** What [json.loads] and [DataFrame.to_dict] hand back: [None], booleans,
    numbers, strings, lists and dicts (a dict keeps its insertion order). *)
Inductive value : Type :=
  | VNone
  | VBool (b : bool)
  | VInt (n : Z)
  | VFloat (literal : string)
  | VStr (s : string)
  | VList (items : list value)
  | VDict (fields : list (string * value)).

(** [type(v).__name__] *)
Definition type_name (v : value) : string :=
  match v with
  | VNone => "NoneType"
  | VBool _ => "bool"
  | VInt _ => "int"
  | VFloat _ => "float"
  | VStr _ => "str"
  | VList _ => "list"
  | VDict _ => "dict"
  end.

(** A Python list of strings, as a caller passes it. *)
Definition py_list (names : list string) : value := VList (VStr <$> names).

(** [d.get(k)] on a dict value. *)
Fixpoint assoc (k : string) (fields : list (string * value)) : option value :=
  match fields with
  | [] => None
  | (k', v) :: rest => if String.eqb k k' then Some v else assoc k rest
  end.

(** [s.endswith(suffix)] and [s.startswith(p)]. *)
Definition endswith (s suffix : string) : bool :=
  String.prefix (String.rev suffix) (String.rev s).

Definition startswith (s p : string) : bool := String.prefix p s.

(** A pandas DataFrame, without its index: column labels and the rows of
    cells.  [df.empty] holds when either axis has length zero. *)
Record DataFrame := mkDataFrame {
  df_columns : list string;
  df_data : list (list value)
}.

Definition df_empty (df : DataFrame) : bool :=
  Nat.eqb (length (df_columns df)) 0 || Nat.eqb (length (df_data df)) 0.

(** [df.to_dict(orient="records")]. *)
Definition to_dict_records (df : DataFrame) : list value :=
  (fun cells => VDict (zip (df_columns df) cells)) <$> df_data df.

(** ** Exceptions and printed lines *)

(** Every exception below derives from [Exception].  The first group is
    raised by the pipeline itself (one constructor per [raise] with the
    values its message interpolates), the second by the libraries. *)
Inductive Exn : Type :=
  | TypeError_archivos_no_es_lista
  | ValueError_no_contiene_datos (archivo : string)
  | RuntimeError_insertar (archivo : string) (errors : list value)
  | ValueError_decodificar_archivos (cause : Exn)
  | ValueError_lista_no_valida
  | ValueError_no_es_array (archivo : string)
  | JSONDecodeError (msg : string)
  | PandasError (msg : string)
  | TypeError (msg : string)
  | AttributeError (msg : string)
  | GoogleAPIError (msg : string).

(** [isinstance(e, json.JSONDecodeError)], for the first [except] clause of
    the plain loader. *)
Definition is_JSONDecodeError (e : Exn) : bool :=
  match e with JSONDecodeError _ => true | _ => false end.

(** One constructor per [print] of the two modules, carrying the values the
    f-string interpolates. *)
Inductive Line : Type :=
  | Archivos_nuevos_detectados (archivos_nuevos : list string)
  | Error_en_obtener_archivos_nuevos (e : Exn)
  | Registrando_archivos (archivos_nuevos : list string)
  | Error_al_insertar_los_archivos_procesados (errors : list value)
  | Archivos_nuevos_registrados (archivos_nuevos : list string)
  | Error_en_registrar_archivos_en_bq (e : Exn)
  | Consultando_archivos_procesados
  | Listando_archivos (bucket_name prefix : string)
  | Error_de_decodificacion_JSON (archivo : value) (e : Exn)
  | Error_al_procesar_el_archivo (archivo : value) (e : Exn)
  | Tipo_de_archivos_recibido (tipo : string)
  | Contenido_de_archivos_recibido (archivos : value)
  | Advertencia_directorio (archivo : string)
  | Leyendo_archivo (archivo : string)
  | Advertencia_formato_no_soportado (archivo : string)
  | Cargando_datos (archivo temp_table : string)
  | Datos_cargados (archivo : string).

(** The two "Advertencia" lines. *)
Definition is_advertencia (l : Line) : bool :=
  match l with
  | Advertencia_directorio _ | Advertencia_formato_no_soportado _ => true
  | _ => false
  end.

(** ** The external services *)

(** The two SQL statements the modules send. *)
Inductive Sql : Type :=
  | SELECT_nombre_archivo (table_id : string)
  | INSERT_INTO_SELECT_ALL (into from : string).

(** A call on the BigQuery or the Cloud Storage client. *)
Inductive Call : Type :=
  | Call_query (q : Sql)
  | Call_list_blobs (bucket_name prefix : string)
  | Call_download (bucket_name archivo : string)
  | Call_create_table (table_id : string)
  | Call_load_table_from_dataframe (table_id : string) (df : DataFrame)
  | Call_insert_rows_json (table_id : string) (rows : list value)
  | Call_delete_table (table_id : string).

(** What the service does to one call: serve it, raise, or (for the calls
    that report row errors instead of raising) reject the rows. *)
Inductive Fault : Type :=
  | Served
  | Raises (e : Exn)
  | Rejects (errors : list value).

Record World := mkWorld {
  gcs : gmap string (list (string * string));
      (* bucket name -> objects (name, content), in listing order *)
  bq : gmap string (list value);
      (* table id -> rows *)
  now : Z;
      (* the instant [datetime.now()] returns *)
  faults : list Fault;
      (* what the services do to the coming calls; [Served] once exhausted *)
  calls : list Call;
      (* client calls issued so far, oldest first *)
  stdout : list Line
      (* lines printed so far, oldest first *)
}.

Definition set_bq (f : gmap string (list value) → gmap string (list value))
    (w : World) : World :=
  mkWorld (gcs w) (f (bq w)) (now w) (faults w) (calls w) (stdout w).

(** ** The state-and-exception monad *)

Inductive Res (A : Type) : Type :=
  | Ok (a : A)
  | Raise (e : Exn).
Arguments Ok {A} a.
Arguments Raise {A} e.

Definition M (A : Type) : Type := World → Res A * World.

Definition ret {A} (a : A) : M A := fun w => (Ok a, w).

Definition raise {A} (e : Exn) : M A := fun w => (Raise e, w).

Definition bind {A B} (m : M A) (k : A → M B) : M B :=
  fun w =>
    match m w with
    | (Ok a, w') => k a w'
    | (Raise e, w') => (Raise e, w')
    end.

(** [try: m except Exception as e: h e]. *)
Definition try_except {A} (m : M A) (h : Exn → M A) : M A :=
  fun w =>
    match m w with
    | (Ok a, w') => (Ok a, w')
    | (Raise e, w') => h e w'
    end.

Notation "'do' x <- m ; k" := (bind m (fun x => k))
  (at level 10, x name, m at level 100, k at level 200, only parsing).
Notation "'run' m ; k" := (bind m (fun _ => k))
  (at level 10, m at level 100, k at level 200, only parsing).

Definition get_world : M World := fun w => (Ok w, w).

Definition modify (f : World → World) : M unit := fun w => (Ok tt, f w).

(** The world with one more printed line. *)
Definition con_linea (l : Line) (w : World) : World :=
  mkWorld (gcs w) (bq w) (now w) (faults w) (calls w) (stdout w ++ [l]).

Definition print (l : Line) : M unit := modify (con_linea l).

(** [datetime.now()]: reads the clock, which then moves on. *)
Definition datetime_now : M Z :=
  fun w => (Ok (now w),
            mkWorld (gcs w) (bq w) (now w + 1)%Z (faults w) (calls w) (stdout w)).

(** Issue a client call: it is recorded, and the service's answer to it is
    the head of the fault schedule. *)
Definition api (c : Call) : M Fault :=
  fun w =>
    let f := match faults w with [] => Served | f :: _ => f end in
    (Ok f, mkWorld (gcs w) (bq w) (now w) (tail (faults w))
                   (calls w ++ [c]) (stdout w)).

(** A [for] loop whose body may raise; a raise leaves the loop. *)
Fixpoint for_each {A} (body : A → M unit) (l : list A) : M unit :=
  match l with
  | [] => ret tt
  | x :: rest => run body x; for_each body rest
  end.

(** [row.nombre_archivo] *)
Definition nombre_archivo (row : value) : option string :=
  match row with
  | VDict fields =>
      match assoc "nombre_archivo" fields with
      | Some (VStr s) => Some s
      | _ => None
      end
  | _ => None
  end.

(** [client.query(sql)] followed by reading the job to its end.  The
    statement runs as one unit: it either raises and changes nothing, or
    takes effect as a whole. *)
Definition client_query (q : Sql) : M (list value) :=
  do f <- api (Call_query q);
  match f with
  | Raises e => raise e
  | _ =>
      do w <- get_world;
      match q with
      | SELECT_nombre_archivo table_id =>
          match bq w !! table_id with
          | Some rows => ret rows
          | None => raise (GoogleAPIError "Not found: Table")
          end
      | INSERT_INTO_SELECT_ALL into from =>
          match bq w !! into, bq w !! from with
          | Some final_rows, Some temp_rows =>
              run modify (set_bq <[into := final_rows ++ temp_rows]>);
              ret []
          | _, _ => raise (GoogleAPIError "Not found: Table")
          end
      end
  end.

(** [storage_client.list_blobs(bucket_name, prefix=prefix)], read to its
    end: the names of the bucket's objects that start with [prefix]. *)
Definition list_blobs (bucket_name prefix : string) : M (list string) :=
  do f <- api (Call_list_blobs bucket_name prefix);
  match f with
  | Raises e => raise e
  | _ =>
      do w <- get_world;
      match gcs w !! bucket_name with
      | Some objects =>
          ret (filter (fun name => startswith name prefix) (objects.*1))
      | None => raise (GoogleAPIError "Not found: Bucket")
      end
  end.

(** [blob.download_as_text()] and [blob.download_as_bytes()]. *)
Definition download (bucket_name archivo : string) : M string :=
  do f <- api (Call_download bucket_name archivo);
  match f with
  | Raises e => raise e
  | _ =>
      do w <- get_world;
      match gcs w !! bucket_name with
      | Some objects =>
          match list_find (fun o => o.1 = archivo) objects with
          | Some (_, (_, contenido)) => ret contenido
          | None => raise (GoogleAPIError "Not found: Object")
          end
      | None => raise (GoogleAPIError "Not found: Bucket")
      end
  end.

(** [client.create_table(table, exists_ok=True)]. *)
Definition create_table_exists_ok (table_id : string) : M unit :=
  do f <- api (Call_create_table table_id);
  match f with
  | Raises e => raise e
  | _ =>
      do w <- get_world;
      match bq w !! table_id with
      | Some _ => ret tt
      | None => modify (set_bq <[table_id := []]>)
      end
  end.

(** [client.insert_rows_json(table_id, rows)]: returns the row errors, and
    inserts nothing when there are any. *)
Definition insert_rows_json (table_id : string) (rows : list value)
    : M (list value) :=
  do f <- api (Call_insert_rows_json table_id rows);
  match f with
  | Raises e => raise e
  | Rejects (err :: errs) => ret (err :: errs)
  | _ =>
      do w <- get_world;
      match bq w !! table_id with
      | Some old => run modify (set_bq <[table_id := old ++ rows]>); ret []
      | None => raise (GoogleAPIError "Not found: Table")
      end
  end.

(** A load job, once submitted: [job.error_result]. *)
Record LoadJob := mkLoadJob { error_result : option (list value) }.

(** [client.load_table_from_dataframe(df, table_id)]: appends the frame's
    rows, creating the table when it is absent. *)
Definition load_table_from_dataframe (df : DataFrame) (table_id : string)
    : M LoadJob :=
  do f <- api (Call_load_table_from_dataframe table_id df);
  match f with
  | Raises e => raise e
  | Rejects (err :: errs) => ret (mkLoadJob (Some (err :: errs)))
  | _ =>
      do w <- get_world;
      run modify (set_bq <[table_id :=
                 default [] (bq w !! table_id) ++ to_dict_records df]>);
      ret (mkLoadJob None)
  end.

(** [job.result()]: blocks until the job is done and raises its error. *)
Definition job_result (job : LoadJob) : M unit :=
  match error_result job with
  | Some _ => raise (GoogleAPIError "load job failed")
  | None => ret tt
  end.

(** [client.delete_table(table_id, not_found_ok=True)]. *)
Definition delete_table_not_found_ok (table_id : string) : M unit :=
  do f <- api (Call_delete_table table_id);
  match f with
  | Raises e => raise e
  | _ => modify (set_bq (delete table_id))
  end.

(** ** The decoders of [json] and [pandas]

    The payload decoders belong to the libraries, not to the pipeline; the
    pipeline is written against this interface.  Each decoder returns the
    decoded value or the exception it raises. *)
Class Decoders := {
  json_loads : string → Res value;
      (* json.loads(text) *)
  pd_read_json_lines : string → Res DataFrame;
      (* pd.read_json(text, lines=True) *)
  pd_read_parquet : string → Res DataFrame;
      (* pd.read_parquet(BytesIO(content)) *)
  pd_read_pickle : string → Res DataFrame
      (* pd.read_pickle(BytesIO(content)) *)
}.

(** ** The constructors of the client library

    Building a client reads the configuration of the machine (credentials,
    default project) and closing it releases its connections: neither sends
    a request, and either may raise.  [bigquery.Table] parses the table id
    and the schema, and raises [ValueError] on what it cannot accept.  Each
    member is the outcome of the constructor: built, or the exception. *)

(** [bigquery.SchemaField(name, field_type, mode)] *)
Record SchemaField := mkSchemaField {
  field_name : string;
  field_type : string;
  field_mode : string
}.

Class Clients := {
  bigquery_Client : option string → Res unit;
      (* bigquery.Client() and bigquery.Client(project=project_id) *)
  storage_Client : Res unit;
      (* storage.Client() *)
  client_close : Res unit;
      (* client.close() *)
  bigquery_Table : string → list SchemaField → Res unit
      (* bigquery.Table(table_id, schema=schema) *)
}.

Definition lift {A} (r : Res A) : M A := fun w => (r, w).

(** A comprehension whose element expression has effects. *)
Fixpoint for_list {A B} (f : A → M B) (l : list A) : M (list B) :=
  match l with
  | [] => ret []
  | x :: rest => do y <- f x; do ys <- for_list f rest; ret (y :: ys)
  end.

(** ** v2_registrar_archivo.py *)

(** f"{project_id}.{dataset}.{table}" *)
Definition table_id_of (project_id dataset table : string) : string :=
  project_id +:+ "." +:+ dataset +:+ "." +:+ table.

(** [{row.nombre_archivo for row in query_job}] *)
Definition archivos_procesados_de (rows : list value) : gset string :=
  list_to_set (omap nombre_archivo rows).

(** [name.endswith('/')] *)
Definition es_directorio (name : string) : bool := endswith name "/".

(** The intake filter, [newObjects] in the specification: the comprehension
    [[archivo for archivo in archivos if archivo not in archivos_procesados]]
    both intake variants end with. *)
Definition newObjects (archivos : list string)
    (archivos_procesados : gset string) : list string :=
  filter (fun archivo => archivo ∉ archivos_procesados) archivos.

(** The [try] block of [obtener_archivos_nuevos]. *)
Definition obtener_archivos_nuevos_try
    (bucket_name prefix project_id dataset : string) : M (list string) :=
  let table_id := table_id_of project_id dataset "archivos_procesados" in
  do query_job <- client_query (SELECT_nombre_archivo table_id);
  let archivos_procesados := archivos_procesados_de query_job in
  do blobs <- list_blobs bucket_name prefix;
  let archivos := blobs in
  let archivos_nuevos := newObjects archivos archivos_procesados in
  run print (Archivos_nuevos_detectados archivos_nuevos);
  ret archivos_nuevos.

Definition obtener_archivos_nuevos
    (bucket_name prefix project_id dataset : string) : M (list string) :=
  try_except
    (obtener_archivos_nuevos_try bucket_name prefix project_id dataset)
    (fun e =>
       run print (Error_en_obtener_archivos_nuevos e);
       ret []).

(** The ledger row of one file.  [fecha_carga] holds the instant whose ISO
    text the source stores. *)
Definition fila_de_registro (archivo : string) : M value :=
  do t <- datetime_now;
  ret (VDict [("nombre_archivo", VStr archivo); ("fecha_carga", VInt t)]).

Definition registrar_archivos_en_bq
    (project_id dataset : string) (archivos_nuevos : list string) : M unit :=
  try_except
    (match archivos_nuevos with
     | [] => ret tt
     | _ :: _ =>
         let table_id := table_id_of project_id dataset "archivos_procesados" in
         do rows_to_insert <- for_list fila_de_registro archivos_nuevos;
         run print (Registrando_archivos archivos_nuevos);
         do errors <- insert_rows_json table_id rows_to_insert;
         match errors with
         | _ :: _ => print (Error_al_insertar_los_archivos_procesados errors)
         | [] => print (Archivos_nuevos_registrados archivos_nuevos)
         end
     end)
    (fun e => print (Error_en_registrar_archivos_en_bq e)).

Definition obtener_archivos_nuevos_version_premium
    (bucket_name prefix project_id dataset : string) : M (list string) :=
  let table_id := table_id_of project_id dataset "archivos_procesados" in
  run print Consultando_archivos_procesados;
  do query_job <- client_query (SELECT_nombre_archivo table_id);
  let archivos_procesados := archivos_procesados_de query_job in
  run print (Listando_archivos bucket_name prefix);
  do blobs <- list_blobs bucket_name prefix;
  let archivos := filter (fun name => ¬ es_directorio name) blobs in
  let archivos_nuevos := newObjects archivos archivos_procesados in
  run print (Archivos_nuevos_detectados archivos_nuevos);
  ret archivos_nuevos.

(** ** tabla_temporal.py *)

(** Tables are modelled by their rows: the schema matters to the
    [bigquery.Table] constructor only. *)
Definition crear_tabla_temporal `{!Clients}
    (project_id dataset temp_table : string) (schema : list SchemaField)
    : M string :=
  run lift (bigquery_Client (Some project_id));
  let table_id := table_id_of project_id dataset temp_table in
  run lift (bigquery_Table table_id schema);
  run create_table_exists_ok table_id;
  ret ("Tabla temporal " +:+ table_id +:+ " creada.").

(** Using a list element as a [str]: anything else makes the operation at
    hand raise [e]. *)
Definition como_nombre (archivo : value) (e : Exn) : M string :=
  match archivo with
  | VStr s => ret s
  | _ => raise e
  end.

Section Loaders.
Context `{!Decoders} `{!Clients}.

(** The [try] body of the plain loader, for one element of [archivos].  The
    storage client takes a [str] for the name of a blob. *)
Definition cargar_un_archivo
    (bucket_name project_id dataset temp_table : string) (archivo : value)
    : M unit :=
  do nombre <- como_nombre archivo (TypeError "expected str for a blob name");
  do contenido <- download bucket_name nombre;
  do df <- lift (pd_read_json_lines contenido);
  if df_empty df then raise (ValueError_no_contiene_datos nombre)
  else
    let table_id := table_id_of project_id dataset temp_table in
    do job <- load_table_from_dataframe df table_id;
    run job_result job;
    match error_result job with
    | Some errors => raise (RuntimeError_insertar nombre errors)
    | None => ret tt
    end.

(** The two [except] clauses of the plain loader. *)
Definition informar_error (archivo : value) (e : Exn) : M unit :=
  if is_JSONDecodeError e
  then print (Error_de_decodificacion_JSON archivo e)
  else print (Error_al_procesar_el_archivo archivo e).

(** One turn of the plain loader's [for] loop: the [try] statement. *)
Definition cargar_iteracion
    (bucket_name project_id dataset temp_table : string) (archivo : value)
    : M unit :=
  try_except
    (cargar_un_archivo bucket_name project_id dataset temp_table archivo)
    (informar_error archivo).

Definition cargar_archivos_en_tabla_temporal
    (bucket_name : string) (archivos : value)
    (project_id dataset temp_table : string) : M unit :=
  run lift (bigquery_Client None);
  run lift storage_Client;
  match archivos with
  | VList items =>
      run for_each
            (cargar_iteracion bucket_name project_id dataset temp_table)
            items;
      lift client_close
  | _ => raise TypeError_archivos_no_es_lista
  end.

Definition mover_datos_y_borrar_temp
    (project_id dataset temp_table final_table : string) : M string :=
  let query_move :=
    INSERT_INTO_SELECT_ALL (table_id_of project_id dataset final_table)
                           (table_id_of project_id dataset temp_table) in
  do _ <- client_query query_move;
  let table_id := table_id_of project_id dataset temp_table in
  run delete_table_not_found_ok table_id;
  ret ("Datos movidos a " +:+ final_table +:+ " y tabla temporal "
       +:+ temp_table +:+ " eliminada.").

(** The format dispatch of the premium loader: the records of the object,
    or [None] where the source prints a warning and [continue]s. *)
Definition leer_datos (bucket_name nombre : string)
    : M (option (list value)) :=
  if endswith nombre ".json" then
    do contenido <- download bucket_name nombre;
    do contenido_json <- lift (json_loads contenido);
    match contenido_json with
    | VList datos => ret (Some datos)
    | _ => raise (ValueError_no_es_array nombre)
    end
  else if endswith nombre ".parquet" then
    do contenido <- download bucket_name nombre;
    do df <- lift (pd_read_parquet contenido);
    ret (Some (to_dict_records df))
  else if endswith nombre ".pkl" then
    do contenido <- download bucket_name nombre;
    do df <- lift (pd_read_pickle contenido);
    ret (Some (to_dict_records df))
  else
    run print (Advertencia_formato_no_soportado nombre);
    ret None.

(** The [try] body of the premium loader, for one element of [archivos]. *)
Definition cargar_un_archivo_v_premium
    (bucket_name table_id temp_table : string) (archivo : value) : M unit :=
  do nombre <- como_nombre archivo
                 (AttributeError "object has no attribute 'endswith'");
  if es_directorio nombre then print (Advertencia_directorio nombre)
  else
    run print (Leyendo_archivo nombre);
    do leido <- leer_datos bucket_name nombre;
    match leido with
    | None => ret tt
    | Some datos =>
        run print (Cargando_datos nombre temp_table);
        do errors <- insert_rows_json table_id datos;
        match errors with
        | _ :: _ => raise (RuntimeError_insertar nombre errors)
        | [] => print (Datos_cargados nombre)
        end
    end.

(** [json.loads(archivos)] when the caller passed a string. *)
Definition normalizar_archivos (archivos : value) : M value :=
  match archivos with
  | VStr s =>
      match json_loads s with
      | Ok v => ret v
      | Raise e =>
          if is_JSONDecodeError e
          then raise (ValueError_decodificar_archivos e)
          else raise e
      end
  | _ => ret archivos
  end.

(** One turn of the premium loader's [for] loop: the [try] statement,
    whose handler prints and re-raises. *)
Definition cargar_iteracion_v_premium
    (bucket_name table_id temp_table : string) (archivo : value) : M unit :=
  try_except
    (cargar_un_archivo_v_premium bucket_name table_id temp_table archivo)
    (fun e =>
       run print (Error_al_procesar_el_archivo archivo e);
       raise e).

Definition cargar_archivos_en_tabla_temporal_v_premium
    (bucket_name : string) (archivos : value)
    (project_id dataset temp_table : string) : M unit :=
  run print (Tipo_de_archivos_recibido (type_name archivos));
  run print (Contenido_de_archivos_recibido archivos);
  do archivos <- normalizar_archivos archivos;
  match archivos with
  | VList (primero :: resto) =>
      let table_id := table_id_of project_id dataset temp_table in
      for_each (cargar_iteracion_v_premium bucket_name table_id temp_table)
        (primero :: resto)
  | _ => raise ValueError_lista_no_valida
  end.

End Loaders.

(** ** What the services hold *)

(** The names the ledger holds, when the ledger table exists. *)
Definition ledger_names (w : World) (project_id dataset : string)
    : option (list string) :=
  (fun rows : list value => omap nombre_archivo rows)
    <$> bq w !! table_id_of project_id dataset "archivos_procesados".

(** The names the bucket lists under [prefix], when the bucket exists. *)
Definition listing (w : World) (bucket_name prefix : string)
    : option (list string) :=
  (fun objects => filter (fun name => startswith name prefix) (objects.*1))
    <$> gcs w !! bucket_name.

(** The row count of a table; an absent table holds no rows. *)
Definition row_count (w : World) (table_id : string) : nat :=
  length (default [] (bq w !! table_id)).


(** The object's content, when the bucket holds it. *)
Definition contenido_de (w : World) (bucket_name archivo : string)
    : option string :=
  objects ← gcs w !! bucket_name;
  o ← list_find (fun o => o.1 = archivo) objects;
  Some (o.2.2).

(** The service answers the next call without raising. *)
Definition served (w : World) : Prop :=
  match faults w with
  | Raises _ :: _ => False
  | _ => True
  end.

(** The service answers the next call and accepts its rows. *)
Definition accepted (w : World) : Prop :=
  match faults w with
  | Raises _ :: _ | Rejects (_ :: _) :: _ => False
  | _ => True
  end.

(** The client library is usable on this machine: the clients can be built
    and closed. *)
Definition clientes_disponibles `{!Clients} : Prop :=
  (∀ project, bigquery_Client project = Ok tt) ∧
  storage_Client = Ok tt ∧
  client_close = Ok tt.

(** The content of an object decodes, on the premium path, to the batch
    [datos]: the suffix is one of the three the loader dispatches on, tried
    in the loader's order, and the decoder of that format returns [datos]. *)
Definition lote_premium `{!Decoders} (nombre contenido : string)
    (datos : list value) : Prop :=
  if endswith nombre ".json" then json_loads contenido = Ok (VList datos)
  else if endswith nombre ".parquet" then
    ∃ df, pd_read_parquet contenido = Ok df ∧ to_dict_records df = datos
  else if endswith nombre ".pkl" then
    ∃ df, pd_read_pickle contenido = Ok df ∧ to_dict_records df = datos
  else False.

(** The world after a call that was answered. *)
Definition tras_llamada (c : Call) (w : World) : World :=
  mkWorld (gcs w) (bq w) (now w) (tail (faults w)) (calls w ++ [c]) (stdout w).

(** The ledger rows written for [archivos] when the clock shows [t]. *)
Fixpoint filas_de_registro (t : Z) (archivos : list string) : list value :=
  match archivos with
  | [] => []
  | archivo :: resto =>
      VDict [("nombre_archivo", VStr archivo); ("fecha_carga", VInt t)]
      :: filas_de_registro (t + 1) resto
  end.

(** [w'] continues [w]: the calls and the printed lines of [w] are still
    there, in front. *)
Definition extends (w w' : World) : Prop :=
  calls w `prefix_of` calls w' ∧ stdout w `prefix_of` stdout w'.

(** An action that only ever adds to the call trace and to the output. *)
Definition monotone {A} (m : M A) : Prop := ∀ w, extends w (m w).2.

(** The line the plain loader prints for an exception. *)
Definition linea_de_error (archivo : value) (e : Exn) : Line :=
  if is_JSONDecodeError e then Error_de_decodificacion_JSON archivo e
  else Error_al_procesar_el_archivo archivo e.

(** An action that always issues the call [c]. *)
Definition records {A} (c : Call) (m : M A) : Prop := ∀ w, c ∈ calls (m w).2.

(** ** A concrete deployment

    One bucket, one dataset and table-driven decoders, on which the
    properties below are exercised. *)

Definition comillas : string := String "034"%char "".
Definition salto : string := String "010"%char "".

(** {"id": n} *)
Definition texto_objeto (n : string) : string :=
  "{" +:+ comillas +:+ "id" +:+ comillas +:+ ": " +:+ n +:+ "}".

Definition objeto (n : Z) : value := VDict [("id", VInt n)].

(** Two JSON objects, one per line. *)
Definition dos_lineas : string :=
  texto_objeto "1" +:+ salto +:+ texto_objeto "2".

(** A JSON array of two objects. *)
Definition un_array : string :=
  "[" +:+ texto_objeto "1" +:+ ", " +:+ texto_objeto "2" +:+ "]".

Definition frame_de_dos : DataFrame := mkDataFrame ["id"] [[VInt 1]; [VInt 2]].
Definition frame_de_tres : DataFrame :=
  mkDataFrame ["id"] [[VInt 3]; [VInt 4]; [VInt 5]].

#[local] Instance decoders_de_ejemplo : Decoders := {|
  json_loads s :=
    if String.eqb s un_array then Ok (VList [objeto 1; objeto 2])
    else if String.eqb s "[]" then Ok (VList [])
    else if String.eqb s (texto_objeto "1") then Ok (objeto 1)
    else Raise (JSONDecodeError "Expecting value");
  pd_read_json_lines s :=
    if String.eqb s dos_lineas then Ok frame_de_dos
    else if String.eqb s "" then Ok (mkDataFrame [] [])
    else Raise (PandasError "Expected object or value");
  pd_read_parquet s :=
    if String.eqb s "PAR1" then Ok frame_de_tres
    else Raise (PandasError "Parquet magic bytes not found");
  pd_read_pickle s := Raise (PandasError "invalid load key")
|}.

(** A configured machine, whose [bigquery.Table] accepts what it is
    given. *)
#[local] Instance clientes_de_ejemplo : Clients := {|
  bigquery_Client _ := Ok tt;
  storage_Client := Ok tt;
  client_close := Ok tt;
  bigquery_Table _ _ := Ok tt
|}.


Definition fila_ledger (archivo : string) : value :=
  VDict [("nombre_archivo", VStr archivo); ("fecha_carga", VInt 0)].

(** The bucket of the end-to-end scenario, with a directory marker, and a
    ledger that already holds [datos/b.json]. *)
Definition mundo : World := {|
  gcs := {[ "cubo" :=
              [("datos/", "");
               ("datos/a.json", dos_lineas);
               ("datos/b.json", dos_lineas);
               ("datos/c.parquet", "PAR1")] ]};
  bq := <[ "p.d.archivos_procesados" := [fila_ledger "datos/b.json"] ]>
        (<[ "p.d.temp" := [objeto 1; objeto 2] ]>
        {[ "p.d.final" := [objeto 7] ]});
  now := 100;
  faults := [];
  calls := [];
  stdout := []
|}.

(** The same deployment with the coming calls answered by [fs]. *)
Definition mundo_con_fallos (fs : list Fault) : World :=
  mkWorld (gcs mundo) (bq mundo) (now mundo) fs [] [].

(** A bucket of payloads for the loaders. *)
Definition mundo_de_carga : World := {|
  gcs := {[ "cubo" :=
              [("malo.json", "{");
               ("bueno.json", un_array);
               ("lineas.json", dos_lineas);
               ("vacio.json", "[]");
               ("nada.json", "");
               ("lineas.csv", dos_lineas);
               ("carpeta/", "")] ]};
  bq := <[ "p.d.archivos_procesados" := [] ]> {[ "p.d.temp" := [] ]};
  now := 100;
  faults := [];
  calls := [];
  stdout := []
|}.

(** Decoders under which every frame has the column [id] and no rows, and
    a bucket with one object of each frame format. *)
Definition decoders_de_frames_vacios : Decoders := {|
  json_loads s := Raise (JSONDecodeError "Expecting value");
  pd_read_json_lines s := Ok (mkDataFrame ["id"] []);
  pd_read_parquet s := Ok (mkDataFrame ["id"] []);
  pd_read_pickle s := Ok (mkDataFrame ["id"] [])
|}.

Definition mundo_de_frames_vacios : World := {|
  gcs := {[ "cubo" := [("vacio.parquet", "PAR1"); ("vacio.pkl", "")] ]};
  bq := {[ "p.d.temp" := [objeto 7] ]};
  now := 100;
  faults := [];
  calls := [];
  stdout := []
|}.

(** A healthy deployment in which nothing is new: an empty bucket. *)
Definition mundo_sin_novedades (bucket_name project_id dataset : string)
    : World := {|
  gcs := {[ bucket_name := [] ]};
  bq := {[ table_id_of project_id dataset "archivos_procesados" := [] ]};
  now := 0; faults := []; calls := []; stdout := []
|}.

(** ** What an action leaves alone, and what the loaders stage *)

(** The rows of a table; an absent table holds none. *)
Definition filas (b : gmap string (list value)) (table_id : string)
    : list value :=
  default [] (b !! table_id).

(** An action under which the buckets stay as they are and the tables move
    along [P], whatever the services do. *)
Definition keeps (P : relation (gmap string (list value))) {A} (m : M A)
    : Prop :=
  ∀ w, gcs (m w).2 = gcs w ∧ P (bq w) (bq (m w).2).

(** The tables outside [T] are as they were. *)
Definition solo_en (T : gset string) : relation (gmap string (list value)) :=
  fun b b' => ∀ table_id, table_id ∉ T → b' !! table_id = b !! table_id.

(** The tables outside [T] are as they were, no table lost or changed a row
    it had (rows were added at the end, if at all), and no table was
    dropped. *)
Definition crece_en (T : gset string) : relation (gmap string (list value)) :=
  fun b b' =>
    (∀ table_id, table_id ∉ T → b' !! table_id = b !! table_id) ∧
    (∀ table_id, filas b table_id `prefix_of` filas b' table_id) ∧
    (∀ table_id, is_Some (b !! table_id) → is_Some (b' !! table_id)).

(** The records staged by a loop that stops at the first object it fails
    on ([None]). *)
Fixpoint lotes_hasta_fallo (lotes : list (option (list value))) : list value :=
  match lotes with
  | Some datos :: resto => datos ++ lotes_hasta_fallo resto
  | _ => []
  end.

Section LoaderSemantics.
Context `{!Decoders}.

(** The records of one object as the plain loader reads them: none when the
    object is missing, when the decoder rejects its payload, or when the
    frame is empty. *)
Definition registros_plain (w : World) (bucket_name nombre : string)
    : list value :=
  match contenido_de w bucket_name nombre with
  | Some contenido =>
      match pd_read_json_lines contenido with
      | Ok df => if df_empty df then [] else to_dict_records df
      | Raise _ => []
      end
  | None => []
  end.

(** The records of a frame decoder's result. *)
Definition registros_de_frame (r : Res DataFrame) : option (list value) :=
  match r with
  | Ok df => Some (to_dict_records df)
  | Raise _ => None
  end.

(** The records of one object as the premium loader reads them: none for a
    name it skips, [None] for an object it fails on. *)
Definition registros_premium (w : World) (bucket_name nombre : string)
    : option (list value) :=
  if es_directorio nombre then Some []
  else if endswith nombre ".json" then
    contenido ← contenido_de w bucket_name nombre;
    match json_loads contenido with
    | Ok (VList datos) => Some datos
    | _ => None
    end
  else if endswith nombre ".parquet" then
    contenido ← contenido_de w bucket_name nombre;
    registros_de_frame (pd_read_parquet contenido)
  else if endswith nombre ".pkl" then
    contenido ← contenido_de w bucket_name nombre;
    registros_de_frame (pd_read_pickle contenido)
  else Some [].

End LoaderSemantics.

(** * Properties *)

(** Unfolds the monad and the client calls down to the world. *)
Ltac run_world :=
  cbv [try_except bind client_query list_blobs download insert_rows_json
       load_table_from_dataframe job_result delete_table_not_found_ok
       create_table_exists_ok api get_world print modify lift ret raise
       set_bq] in *;
  simpl in *.

(** ** The client calls when the service answers *)

Lemma bq_con_linea l w : bq (con_linea l w) = bq w.
Proof. reflexivity. Qed.

Lemma bq_tras_llamada c w : bq (tras_llamada c w) = bq w.
Proof. reflexivity. Qed.

Lemma download_served bucket_name archivo contenido w :
  served w → contenido_de w bucket_name archivo = Some contenido →
  download bucket_name archivo w
  = (Ok contenido, tras_llamada (Call_download bucket_name archivo) w).
Proof.
  unfold served, contenido_de, tras_llamada. destruct w as [g b n f c s].
  simpl. intros Hs Hc. run_world.
  assert (match g !! bucket_name with
          | Some objects =>
              match list_find (fun o : string * string => o.1 = archivo) objects
              with
              | Some (_, (_, contenido)) => ret contenido
              | None => raise (GoogleAPIError "Not found: Object")
              end
          | None => raise (GoogleAPIError "Not found: Bucket")
          end = ret contenido) as Hfound.
  { destruct (g !! bucket_name) as [objects|]; simpl in *; [|done].
    destruct (list_find _ objects) as [[i [nm ct]]|]; simpl in *; [|done].
    by inversion Hc. }
  unfold ret, raise in Hfound.
  destruct f as [|[] ?]; simpl in *; try done; by rewrite Hfound.
Qed.

Lemma insert_rows_json_accepted table_id rows old w :
  accepted w → bq w !! table_id = Some old →
  insert_rows_json table_id rows w
  = (Ok [], set_bq <[table_id := old ++ rows]>
              (tras_llamada (Call_insert_rows_json table_id rows) w)).
Proof.
  unfold accepted, tras_llamada. destruct w as [g b n f c s]. simpl.
  intros Ha Hold. run_world.
  destruct f as [|[| |[|]] ?]; simpl in *; try done; by rewrite Hold.
Qed.

(** ** The intake filter *)

Lemma elem_of_newObjects archivos procesados x :
  x ∈ newObjects archivos procesados ↔ x ∈ archivos ∧ x ∉ procesados.
Proof. unfold newObjects. rewrite list_elem_of_filter. tauto. Qed.

Lemma newObjects_sublist archivos procesados :
  sublist (newObjects archivos procesados) archivos.
Proof. apply sublist_filter. Qed.

Lemma intake_runs w bucket_name prefix project_id dataset A B :
  faults w = [] →
  ledger_names w project_id dataset = Some B →
  listing w bucket_name prefix = Some A →
  (obtener_archivos_nuevos bucket_name prefix project_id dataset w).1
    = Ok (newObjects A (list_to_set B)) ∧
  (obtener_archivos_nuevos_version_premium bucket_name prefix project_id
     dataset w).1
    = Ok (newObjects (filter (fun name => ¬ es_directorio name) A)
            (list_to_set B)).
Proof.
  destruct w as [g b n f c s]. unfold ledger_names, listing. simpl.
  intros -> HB HA.
  destruct (b !! table_id_of project_id dataset "archivos_procesados")
    as [rows|] eqn:Hrows; simpl in HB; [|done].
  destruct (g !! bucket_name) as [objects|] eqn:Hobj; simpl in HA; [|done].
  inversion HA; subst A; clear HA. inversion HB; subst B; clear HB.
  split.
  - unfold obtener_archivos_nuevos, obtener_archivos_nuevos_try. run_world.
    rewrite Hrows. simpl. rewrite Hobj. reflexivity.
  - unfold obtener_archivos_nuevos_version_premium. run_world.
    rewrite Hrows. simpl. rewrite Hobj. reflexivity.
Qed.

Example mundo_listing :
  listing mundo "cubo" "datos/"
  = Some ["datos/"; "datos/a.json"; "datos/b.json"; "datos/c.parquet"].
Proof. vm_compute. reflexivity. Qed.

Example mundo_ledger : ledger_names mundo "p" "d" = Some ["datos/b.json"].
Proof. vm_compute. reflexivity. Qed.

Example mundo_intake :
  (obtener_archivos_nuevos "cubo" "datos/" "p" "d" mundo).1
  = Ok ["datos/"; "datos/a.json"; "datos/c.parquet"].
Proof. vm_compute. reflexivity. Qed.

Example mundo_intake_premium :
  (obtener_archivos_nuevos_version_premium "cubo" "datos/" "p" "d" mundo).1
  = Ok ["datos/a.json"; "datos/c.parquet"].
Proof. vm_compute. reflexivity. Qed.

Lemma filter_Forall_id {A} (P : A → Prop) `{!∀ x, Decision (P x)} (l : list A) :
  Forall P l → filter P l = l.
Proof.
  induction 1 as [|x l Hx _ IH]; [done|].
  by rewrite filter_cons_True, IH.
Qed.

Lemma newObjects_of_names (A B : list string) :
  newObjects A (list_to_set B) = filter (fun x => x ∉ B) A.
Proof.
  unfold newObjects. apply list_filter_iff. intros x.
  by rewrite elem_of_list_to_set.
Qed.

(** C1.  When both services answer, with [B] the ledger names and [L] the
    bucket listing: each intake variant returns exactly the names of its
    list [archivos] that are not in [B], in the order of that list.
    [archivos] is the whole listing in [obtener_archivos_nuevos]; in the
    premium variant it is the listing without the names ending in '/', hence
    the listing itself when it holds no directory marker.  The difference of
    any list [A] with [B] holds exactly the elements of [A] outside [B], in
    the order of [A], shares nothing with [B], and is empty for empty [A]. *)
Theorem intake_filter_set_difference
    w bucket_name prefix project_id dataset (L B : list string) :
  faults w = [] →
  ledger_names w project_id dataset = Some B →
  listing w bucket_name prefix = Some L →
  let diferencia (A : list string) := filter (fun x => x ∉ B) A in
  let plain :=
    (obtener_archivos_nuevos bucket_name prefix project_id dataset w).1 in
  let premium :=
    (obtener_archivos_nuevos_version_premium bucket_name prefix project_id
       dataset w).1 in
  plain = Ok (diferencia L) ∧
  premium = Ok (diferencia (filter (fun name => ¬ es_directorio name) L)) ∧
  (Forall (fun name => ¬ es_directorio name) L → premium = Ok (diferencia L)) ∧
  (∀ A, (∀ x, x ∈ diferencia A ↔ x ∈ A ∧ x ∉ B) ∧
        sublist (diferencia A) A ∧
        (∀ x, x ∈ diferencia A → x ∉ B)) ∧
  diferencia [] = [].
Proof.
  intros Hf HB HL.
  destruct (intake_runs w bucket_name prefix project_id dataset L B Hf HB HL)
    as [Hplain Hpremium].
  simpl. rewrite Hplain, Hpremium, !newObjects_of_names.
  split; [done|]. split; [done|]. split; [|split; [|done]].
  - intros Hfiles. by rewrite (filter_Forall_id _ L Hfiles).
  - intros A. split; [|split].
    + intros x. rewrite list_elem_of_filter. tauto.
    + apply sublist_filter.
    + intros x Hx. apply list_elem_of_filter in Hx. tauto.
Qed.

Lemma intake_filter_set_difference_witness :
  (obtener_archivos_nuevos "cubo" "datos/" "p" "d" mundo).1
  = Ok ["datos/"; "datos/a.json"; "datos/c.parquet"] ∧
  (obtener_archivos_nuevos_version_premium "cubo" "datos/" "p" "d" mundo).1
  = Ok ["datos/a.json"; "datos/c.parquet"].
Proof.
  destruct (intake_filter_set_difference mundo "cubo" "datos/" "p" "d"
              ["datos/"; "datos/a.json"; "datos/b.json"; "datos/c.parquet"]
              ["datos/b.json"] eq_refl eq_refl eq_refl)
    as (Hplain & Hpremium & _).
  rewrite Hplain, Hpremium. vm_compute. split; reflexivity.
Defined.

(** The end-to-end scenario of the specification: the listing holds no
    directory marker, and both variants return the listing minus the
    ledger. *)
Example intake_scenario :
  let w :=
    mkWorld {[ "cubo" := [("a.json", dos_lineas); ("b.json", dos_lineas);
                          ("c.parquet", "PAR1")] ]}
      {[ "p.d.archivos_procesados" := [fila_ledger "b.json"] ]} 0 [] [] [] in
  (obtener_archivos_nuevos "cubo" "" "p" "d" w).1
  = Ok ["a.json"; "c.parquet"] ∧
  (obtener_archivos_nuevos_version_premium "cubo" "" "p" "d" w).1
  = Ok ["a.json"; "c.parquet"].
Proof. vm_compute. split; reflexivity. Qed.

(** ** Failures inside the non-premium intake *)

Lemma obtener_archivos_nuevos_outcome bucket_name prefix project_id dataset w :
  obtener_archivos_nuevos bucket_name prefix project_id dataset w =
  match obtener_archivos_nuevos_try bucket_name prefix project_id dataset w with
  | (Ok archivos_nuevos, w') => (Ok archivos_nuevos, w')
  | (Raise e, w') => (Ok [], con_linea (Error_en_obtener_archivos_nuevos e) w')
  end.
Proof.
  unfold obtener_archivos_nuevos, try_except.
  destruct (obtener_archivos_nuevos_try _ _ _ _ w) as [[l|e] w']; reflexivity.
Qed.

Lemma ledger_query_failure bucket_name prefix project_id dataset w e fs :
  faults w = Raises e :: fs →
  (obtener_archivos_nuevos_try bucket_name prefix project_id dataset w).1
  = Raise e.
Proof.
  destruct w as [g b n f c s]. simpl. intros ->.
  unfold obtener_archivos_nuevos_try. run_world. reflexivity.
Qed.

Lemma ledger_table_missing bucket_name prefix project_id dataset w :
  bq w !! table_id_of project_id dataset "archivos_procesados" = None →
  ∃ e, (obtener_archivos_nuevos_try bucket_name prefix project_id dataset w).1
       = Raise e.
Proof.
  destruct w as [g b n f c s]. simpl. intros H.
  unfold obtener_archivos_nuevos_try. run_world.
  destruct f as [|[] ?]; simpl; rewrite ?H; simpl; eauto.
Qed.

Lemma listing_failure bucket_name prefix project_id dataset w f e fs :
  faults w = f :: Raises e :: fs →
  ∃ e', (obtener_archivos_nuevos_try bucket_name prefix project_id dataset w).1
        = Raise e'.
Proof.
  destruct w as [g b n f0 c s]. simpl. intros ->.
  unfold obtener_archivos_nuevos_try. run_world.
  destruct f as [|e0|errs]; simpl; eauto;
    destruct (b !! _) as [rows|]; simpl; eauto.
Qed.

Lemma bucket_missing bucket_name prefix project_id dataset w :
  gcs w !! bucket_name = None →
  ∃ e, (obtener_archivos_nuevos_try bucket_name prefix project_id dataset w).1
       = Raise e.
Proof.
  destruct w as [g b n f c s]. simpl. intros H.
  unfold obtener_archivos_nuevos_try. run_world.
  destruct f as [|f1 f]; simpl.
  - destruct (b !! _) as [rows|]; simpl; eauto.
    rewrite H. simpl. eauto.
  - destruct f1; simpl; eauto;
      (destruct (b !! _) as [rows|]; simpl; eauto;
       destruct f as [|[] ?]; simpl; eauto; rewrite H; simpl; eauto).
Qed.

Lemma sin_novedades_runs bucket_name prefix project_id dataset :
  (obtener_archivos_nuevos_try bucket_name prefix project_id dataset
     (mundo_sin_novedades bucket_name project_id dataset)).1 = Ok [].
Proof.
  unfold obtener_archivos_nuevos_try, mundo_sin_novedades. run_world.
  rewrite lookup_singleton_eq. simpl. rewrite lookup_singleton_eq. reflexivity.
Qed.

(** C10.  [obtener_archivos_nuevos] never raises.  Whenever its [try] block
    raises (the ledger query fails, the ledger table is missing, the listing
    fails, the bucket is missing) it prints the error and returns the empty
    list, which is also what a healthy run with nothing new returns: the
    return value does not tell the two apart, and no object is reported. *)
Theorem intake_failure_returns_empty
    bucket_name prefix project_id dataset w e w' :
  obtener_archivos_nuevos_try bucket_name prefix project_id dataset w
    = (Raise e, w') →
  obtener_archivos_nuevos bucket_name prefix project_id dataset w
    = (Ok [], con_linea (Error_en_obtener_archivos_nuevos e) w') ∧
  ∃ w0,
    faults w0 = [] ∧
    (obtener_archivos_nuevos_try bucket_name prefix project_id dataset w0).1
      = Ok [] ∧
    (obtener_archivos_nuevos bucket_name prefix project_id dataset w0).1
      = (obtener_archivos_nuevos bucket_name prefix project_id dataset w).1.
Proof.
  intros H. rewrite !obtener_archivos_nuevos_outcome, H. split; [done|].
  exists (mundo_sin_novedades bucket_name project_id dataset).
  split; [done|]. split; [apply sin_novedades_runs|].
  rewrite obtener_archivos_nuevos_outcome.
  pose proof (sin_novedades_runs bucket_name prefix project_id dataset) as Hq.
  destruct (obtener_archivos_nuevos_try _ _ _ _ (mundo_sin_novedades _ _ _))
    as [[l|e0] w0]; simpl in *; congruence.
Qed.

Lemma intake_failure_returns_empty_witness :
  obtener_archivos_nuevos "cubo" "datos/" "p" "d"
    (mundo_con_fallos [Raises (GoogleAPIError "503")])
  = (Ok [],
     con_linea (Error_en_obtener_archivos_nuevos (GoogleAPIError "503"))
       (mkWorld (gcs mundo) (bq mundo) (now mundo) []
          [Call_query (SELECT_nombre_archivo "p.d.archivos_procesados")] [])).
Proof.
  destruct (intake_failure_returns_empty "cubo" "datos/" "p" "d"
              (mundo_con_fallos [Raises (GoogleAPIError "503")])
              (GoogleAPIError "503")
              (mkWorld (gcs mundo) (bq mundo) (now mundo) []
                 [Call_query (SELECT_nombre_archivo "p.d.archivos_procesados")]
                 []) eq_refl) as [H _].
  exact H.
Defined.

(** [obtener_archivos_nuevos] returns a list in every world. *)
Lemma obtener_archivos_nuevos_never_raises
    bucket_name prefix project_id dataset w :
  ∃ archivos_nuevos,
    (obtener_archivos_nuevos bucket_name prefix project_id dataset w).1
    = Ok archivos_nuevos.
Proof.
  rewrite obtener_archivos_nuevos_outcome.
  destruct (obtener_archivos_nuevos_try _ _ _ _ w) as [[l|e] w']; simpl; eauto.
Qed.

(** ** The ledger writer *)

Lemma for_list_fila_de_registro archivos w :
  for_list fila_de_registro archivos w
  = (Ok (filas_de_registro (now w) archivos),
     mkWorld (gcs w) (bq w) (now w + Z.of_nat (length archivos))
       (faults w) (calls w) (stdout w)).
Proof.
  revert w. induction archivos as [|archivo archivos IH]; intros w.
  - destruct w as [g b n f c s]. simpl. unfold ret. by rewrite Z.add_0_r.
  - simpl. unfold bind at 1. unfold fila_de_registro at 1, bind, datetime_now.
    simpl. unfold ret at 1. rewrite IH. simpl. unfold ret.
    replace (now w + 1 + Z.of_nat (length archivos))%Z
      with (now w + Z.pos (Pos.of_succ_nat (length archivos)))%Z by lia.
    reflexivity.
Qed.

Lemma nombres_de_filas_de_registro t archivos :
  omap nombre_archivo (filas_de_registro t archivos) = archivos.
Proof.
  revert t. induction archivos as [|archivo archivos IH]; intros t; [done|].
  simpl. by rewrite IH.
Qed.

Lemma registrar_archivos_en_bq_outcome project_id dataset archivo resto w :
  let table_id := table_id_of project_id dataset "archivos_procesados" in
  let archivos_nuevos := archivo :: resto in
  registrar_archivos_en_bq project_id dataset archivos_nuevos w =
  match
    insert_rows_json table_id (filas_de_registro (now w) archivos_nuevos)
      (con_linea (Registrando_archivos archivos_nuevos)
         (mkWorld (gcs w) (bq w)
            (now w + Z.of_nat (length archivos_nuevos))
            (faults w) (calls w) (stdout w)))
  with
  | (Ok [], w') =>
      (Ok tt, con_linea (Archivos_nuevos_registrados archivos_nuevos) w')
  | (Ok (err :: errs), w') =>
      (Ok tt,
       con_linea (Error_al_insertar_los_archivos_procesados (err :: errs)) w')
  | (Raise e, w') =>
      (Ok tt, con_linea (Error_en_registrar_archivos_en_bq e) w')
  end.
Proof.
  intros table_id archivos_nuevos. subst archivos_nuevos.
  unfold registrar_archivos_en_bq. fold table_id.
  cbv beta iota. unfold try_except at 1. unfold bind at 1.
  rewrite for_list_fila_de_registro.
  unfold bind at 1. unfold print at 1, modify at 1. unfold bind at 1.
  unfold con_linea at 1. simpl.
  destruct (insert_rows_json table_id _ _) as [[[|err errs]|e] w']; done.
Qed.

(** When the insert is accepted, the ledger gains one entry per name. *)
Lemma registrar_archivos_en_bq_appends
    project_id dataset archivos_nuevos w registrados :
  accepted w → ledger_names w project_id dataset = Some registrados →
  ledger_names (registrar_archivos_en_bq project_id dataset archivos_nuevos w).2
    project_id dataset
  = Some (registrados ++ archivos_nuevos).
Proof.
  intros Ha Hl. destruct archivos_nuevos as [|archivo resto].
  { simpl. by rewrite app_nil_r. }
  rewrite registrar_archivos_en_bq_outcome.
  unfold ledger_names in *.
  destruct (bq w !! _) as [old|] eqn:Hold; simpl in Hl; [|done].
  inversion Hl; subst registrados; clear Hl.
  erewrite insert_rows_json_accepted; [|exact Ha|exact Hold].
  simpl. rewrite lookup_insert_eq. simpl.
  rewrite omap_app. simpl. by rewrite nombres_de_filas_de_registro.
Qed.

(** C7 (as amended).  [registrar_archivos_en_bq] never raises.  When the
    insert into the ledger fails (the call raises, the rows are rejected, or
    the ledger table is missing) the error is printed as the last line, the
    function returns normally, and the tables are as they were: the ledger
    holds none of the names, so the next intake reports them again. *)
Theorem ledger_failure_printed_not_raised project_id dataset archivos_nuevos w :
  let table_id := table_id_of project_id dataset "archivos_procesados" in
  let r := registrar_archivos_en_bq project_id dataset archivos_nuevos w in
  r.1 = Ok tt ∧
  (archivos_nuevos ≠ [] → ¬ accepted w ∨ bq w !! table_id = None →
     bq r.2 = bq w ∧
     ledger_names r.2 project_id dataset = ledger_names w project_id dataset ∧
     ((∃ e, last (stdout r.2) = Some (Error_en_registrar_archivos_en_bq e)) ∨
      (∃ errors,
         last (stdout r.2)
         = Some (Error_al_insertar_los_archivos_procesados errors)))).
Proof.
  intros table_id r. split.
  - unfold r. destruct archivos_nuevos as [|archivo resto]; [done|].
    rewrite registrar_archivos_en_bq_outcome.
    by destruct (insert_rows_json _ _ _) as [[[|err errs]|e] w'].
  - intros Hne Hfail. unfold r, ledger_names. fold table_id.
    destruct archivos_nuevos as [|archivo resto]; [done|].
    rewrite registrar_archivos_en_bq_outcome.
    fold table_id. destruct w as [g b n f c s]. unfold accepted in Hfail.
    run_world.
    destruct f as [|[|e|[|err errs]] f]; simpl in *;
      try (destruct (b !! table_id) as [old|] eqn:Hold; simpl);
      try (destruct Hfail as [Hna|Hnone]; [by destruct Hna|done]);
      rewrite ?last_snoc, ?Hold; simpl;
      (split; [done|split; [done|eauto]]).
Qed.

Lemma ledger_failure_printed_not_raised_witness :
  let w := mundo_con_fallos [Raises (GoogleAPIError "503")] in
  let r := registrar_archivos_en_bq "p" "d" ["datos/a.json"] w in
  bq r.2 = bq w ∧
  ledger_names r.2 "p" "d" = ledger_names w "p" "d" ∧
  ((∃ e, last (stdout r.2) = Some (Error_en_registrar_archivos_en_bq e)) ∨
   (∃ errors,
      last (stdout r.2)
      = Some (Error_al_insertar_los_archivos_procesados errors))).
Proof.
  destruct (ledger_failure_printed_not_raised "p" "d" ["datos/a.json"]
              (mundo_con_fallos [Raises (GoogleAPIError "503")]))
    as [_ Hfail].
  apply Hfail; [discriminate|]. left. intros Ha. exact Ha.
Defined.

(** C7, as the claim states it, fails: the insert into the ledger raises, or
    reports row errors, and [registrar_archivos_en_bq] returns normally in
    both cases; the ledger still holds [datos/b.json] only. *)
Lemma ledger_writer_swallows_errors :
  let raised :=
    registrar_archivos_en_bq "p" "d" ["datos/a.json"]
      (mundo_con_fallos [Raises (GoogleAPIError "503")]) in
  let rejected :=
    registrar_archivos_en_bq "p" "d" ["datos/a.json"]
      (mundo_con_fallos [Rejects [VStr "invalid"]]) in
  raised.1 = Ok tt ∧
  stdout raised.2 = [Registrando_archivos ["datos/a.json"];
                     Error_en_registrar_archivos_en_bq (GoogleAPIError "503")] ∧
  ledger_names raised.2 "p" "d" = Some ["datos/b.json"] ∧
  rejected.1 = Ok tt ∧
  stdout rejected.2
  = [Registrando_archivos ["datos/a.json"];
     Error_al_insertar_los_archivos_procesados [VStr "invalid"]] ∧
  ledger_names rejected.2 "p" "d" = Some ["datos/b.json"].
Proof. repeat split; vm_compute; reflexivity. Qed.

(** ** Promotion *)

Lemma table_id_of_inj project_id dataset t1 t2 :
  table_id_of project_id dataset t1 = table_id_of project_id dataset t2 →
  t1 = t2.
Proof.
  unfold table_id_of. intros H.
  do 4 apply (inj (String.app _)) in H. exact H.
Qed.

(** C2.  For distinct staging and final tables: when
    [mover_datos_y_borrar_temp] raises, the staging table is as it was at
    the call; when it returns, the staging table is gone and the final table
    holds its former rows followed by the staging rows, so that its row
    count grew by the staging row count at the call. *)
Theorem promotion_all_or_nothing
    project_id dataset temp_table final_table w :
  temp_table ≠ final_table →
  let staging := table_id_of project_id dataset temp_table in
  let final := table_id_of project_id dataset final_table in
  match mover_datos_y_borrar_temp project_id dataset temp_table final_table w
  with
  | (Raise e, w') =>
      bq w' !! staging = bq w !! staging ∧
      row_count w' staging = row_count w staging
  | (Ok mensaje, w') =>
      bq w' !! staging = None ∧
      row_count w' staging = 0 ∧
      bq w' !! final
        = Some (default [] (bq w !! final) ++ default [] (bq w !! staging)) ∧
      row_count w' final = row_count w final + row_count w staging
  end.
Proof.
  intros Hne staging final.
  assert (final ≠ staging) as Hids.
  { intros Heq. apply Hne. symmetry. by eapply table_id_of_inj. }
  unfold mover_datos_y_borrar_temp, row_count. fold staging. fold final.
  destruct w as [g b n f c s]. run_world.
  destruct f as [|f1 f]; simpl.
  - destruct (b !! final) as [final_rows|] eqn:Hfin; simpl; [|done].
    destruct (b !! staging) as [temp_rows|] eqn:Hst; simpl; [|by rewrite Hst].
    rewrite lookup_delete_eq, lookup_delete_ne, lookup_insert_eq by done.
    simpl. rewrite length_app. done.
  - destruct f1 as [|e1|errs]; simpl; [|done|].
    + destruct (b !! final) as [final_rows|] eqn:Hfin; simpl; [|done].
      destruct (b !! staging) as [temp_rows|] eqn:Hst; simpl; [|by rewrite Hst].
      destruct f as [|[|e2|errs2] f]; simpl;
        rewrite ?lookup_delete_eq, ?lookup_delete_ne, ?lookup_insert_eq,
          ?lookup_insert_ne, ?Hst by done;
        simpl; rewrite ?length_app; done.
    + destruct (b !! final) as [final_rows|] eqn:Hfin; simpl; [|done].
      destruct (b !! staging) as [temp_rows|] eqn:Hst; simpl; [|by rewrite Hst].
      destruct f as [|[|e2|errs2] f]; simpl;
        rewrite ?lookup_delete_eq, ?lookup_delete_ne, ?lookup_insert_eq,
          ?lookup_insert_ne, ?Hst by done;
        simpl; rewrite ?length_app; done.
Qed.

Lemma promotion_all_or_nothing_witness :
  ∃ mensaje w',
    mover_datos_y_borrar_temp "p" "d" "temp" "final" mundo = (Ok mensaje, w') ∧
    bq w' !! "p.d.temp" = None ∧
    bq w' !! "p.d.final" = Some [objeto 7; objeto 1; objeto 2] ∧
    row_count w' "p.d.final" = row_count mundo "p.d.final" + 2.
Proof.
  assert ("temp" ≠ "final") as Hne by discriminate.
  pose proof (promotion_all_or_nothing "p" "d" "temp" "final" mundo Hne) as P.
  destruct (mover_datos_y_borrar_temp "p" "d" "temp" "final" mundo)
    as [[mensaje|e] w'] eqn:E.
  - exists mensaje, w'. destruct P as (P1 & _ & P3 & P4).
    split; [reflexivity|]. split; [exact P1|]. split; [exact P3|exact P4].
  - vm_compute in E. discriminate E.
Defined.

(** A failed copy: the statement raises, and staging keeps its two rows. *)
Example promotion_failure_keeps_staging :
  ∃ w',
    mover_datos_y_borrar_temp "p" "d" "temp" "final"
      (mundo_con_fallos [Raises (GoogleAPIError "quota")])
    = (Raise (GoogleAPIError "quota"), w') ∧
    bq w' !! "p.d.temp" = Some [objeto 1; objeto 2] ∧
    bq w' !! "p.d.final" = Some [objeto 7].
Proof. eexists. vm_compute. repeat split. Qed.

(** A failed delete after a successful copy: the function raises, staging
    keeps its rows and the final table has already received them. *)
Example promotion_delete_failure :
  ∃ w',
    mover_datos_y_borrar_temp "p" "d" "temp" "final"
      (mundo_con_fallos [Served; Raises (GoogleAPIError "forbidden")])
    = (Raise (GoogleAPIError "forbidden"), w') ∧
    bq w' !! "p.d.temp" = Some [objeto 1; objeto 2] ∧
    bq w' !! "p.d.final" = Some [objeto 7; objeto 1; objeto 2].
Proof. eexists. vm_compute. repeat split. Qed.

(** Why the two tables have to be distinct: with one table in both roles
    the copy doubles it and the delete then removes it. *)
Example promotion_onto_itself :
  ∃ mensaje w',
    mover_datos_y_borrar_temp "p" "d" "temp" "temp" mundo = (Ok mensaje, w') ∧
    bq w' !! "p.d.temp" = None.
Proof. do 2 eexists. vm_compute. split; reflexivity. Qed.

(** ** The call trace and the output only grow *)

Lemma extends_refl w : extends w w.
Proof. split; reflexivity. Qed.

Lemma extends_trans w1 w2 w3 : extends w1 w2 → extends w2 w3 → extends w1 w3.
Proof. intros [? ?] [? ?]. split; etrans; eauto. Qed.

Lemma extends_calls w w' c : extends w w' → c ∈ calls w → c ∈ calls w'.
Proof. intros [[k ->] _] ?. apply elem_of_app. by left. Qed.


Lemma monotone_ret {A} (a : A) : monotone (ret a).
Proof. intros w. apply extends_refl. Qed.

Lemma monotone_raise {A} e : monotone (@raise A e).
Proof. intros w. apply extends_refl. Qed.

Lemma monotone_lift {A} (r : Res A) : monotone (lift r).
Proof. intros w. apply extends_refl. Qed.

Lemma monotone_get_world : monotone get_world.
Proof. intros w. apply extends_refl. Qed.

Lemma monotone_set_bq f : monotone (modify (set_bq f)).
Proof. intros w. split; reflexivity. Qed.

Lemma monotone_print l : monotone (print l).
Proof. intros w. split; simpl; [reflexivity|]. by apply prefix_app_r. Qed.

Lemma monotone_api c : monotone (api c).
Proof. intros w. split; simpl; [|reflexivity]. by apply prefix_app_r. Qed.

Lemma monotone_bind {A B} (m : M A) (k : A → M B) :
  monotone m → (∀ a, monotone (k a)) → monotone (bind m k).
Proof.
  intros Hm Hk w. unfold bind. specialize (Hm w).
  destruct (m w) as [[a|e] w1]; simpl in *; [|done].
  eapply extends_trans; [exact Hm|apply Hk].
Qed.

Lemma monotone_try_except {A} (m : M A) (h : Exn → M A) :
  monotone m → (∀ e, monotone (h e)) → monotone (try_except m h).
Proof.
  intros Hm Hh w. unfold try_except. specialize (Hm w).
  destruct (m w) as [[a|e] w1]; simpl in *; [done|].
  eapply extends_trans; [exact Hm|apply Hh].
Qed.

Lemma monotone_for_each {A} (body : A → M unit) l :
  (∀ a, monotone (body a)) → monotone (for_each body l).
Proof.
  intros Hb. induction l as [|x l IH]; simpl.
  - apply monotone_ret.
  - apply monotone_bind; [apply Hb|]. intros _. exact IH.
Qed.

Create HintDb mono.
#[export] Hint Resolve monotone_ret monotone_raise monotone_lift
  monotone_get_world monotone_set_bq monotone_print monotone_api : mono.

(** Decomposes a [monotone] goal along the structure of the action. *)
Ltac mono :=
  repeat first
    [ progress auto with mono
    | apply monotone_bind; [|intros ?]
    | apply monotone_try_except; [|intros ?]
    | match goal with
      | |- monotone (match ?x with _ => _ end) => destruct x
      | |- monotone (if ?b then _ else _) => destruct b
      end ].

Lemma monotone_download bucket_name archivo :
  monotone (download bucket_name archivo).
Proof. unfold download. mono. Qed.

Lemma monotone_insert_rows_json table_id rows :
  monotone (insert_rows_json table_id rows).
Proof. unfold insert_rows_json. mono. Qed.

Lemma monotone_load_table_from_dataframe df table_id :
  monotone (load_table_from_dataframe df table_id).
Proof. unfold load_table_from_dataframe. mono. Qed.

Lemma monotone_job_result job : monotone (job_result job).
Proof. unfold job_result. mono. Qed.

#[export] Hint Resolve monotone_download monotone_insert_rows_json
  monotone_load_table_from_dataframe monotone_job_result : mono.

Lemma records_api {A} c (k : Fault → M A) :
  (∀ f, monotone (k f)) → records c (bind (api c) k).
Proof.
  intros Hk w. unfold bind. simpl.
  eapply extends_calls; [apply Hk|]. simpl.
  apply elem_of_app. right. apply list_elem_of_here.
Qed.

Lemma records_bind {A B} c (m : M A) (k : A → M B) :
  records c m → (∀ a, monotone (k a)) → records c (bind m k).
Proof.
  intros Hm Hk w. unfold bind. specialize (Hm w).
  destruct (m w) as [[a|e] w1]; simpl in *; [|done].
  eapply extends_calls; [apply Hk|done].
Qed.

Lemma records_try_except {A} c (m : M A) (h : Exn → M A) :
  records c m → (∀ e, monotone (h e)) → records c (try_except m h).
Proof.
  intros Hm Hh w. unfold try_except. specialize (Hm w).
  destruct (m w) as [[a|e] w1]; simpl in *; [done|].
  eapply extends_calls; [apply Hh|done].
Qed.

Lemma records_download bucket_name archivo :
  records (Call_download bucket_name archivo) (download bucket_name archivo).
Proof. unfold download. apply records_api. intros f. mono. Qed.

Lemma prefix_String a s1 b s2 :
  String.prefix (String a s1) (String b s2)
  = if ascii_dec a b then String.prefix s1 s2 else false.
Proof. reflexivity. Qed.

(** A name with one of the three supported suffixes is no directory marker. *)
Lemma endswith_not_directory nombre sufijo c resto :
  String.rev sufijo = String c resto → c ≠ "/"%char →
  endswith nombre sufijo = true → es_directorio nombre = false.
Proof.
  unfold es_directorio, endswith. intros -> Hc.
  change (String.rev "/") with (String "/"%char "").
  destruct (String.rev nombre) as [|c' r]; [done|].
  rewrite !prefix_String.
  destruct (ascii_dec c c') as [<-|]; [|done].
  destruct (ascii_dec "/" c) as [<-|]; done.
Qed.

Lemma json_not_directory nombre :
  endswith nombre ".json" = true → es_directorio nombre = false.
Proof. by apply (endswith_not_directory _ _ "n"%char "osj."). Qed.

Section LoaderProperties.
Context `{!Decoders} `{!Clients}.

Lemma monotone_cargar_un_archivo bucket_name project_id dataset temp_table
    archivo :
  monotone (cargar_un_archivo bucket_name project_id dataset temp_table
              archivo).
Proof. unfold cargar_un_archivo, como_nombre. mono. Qed.

Lemma monotone_informar_error archivo e : monotone (informar_error archivo e).
Proof. unfold informar_error. mono. Qed.

Lemma monotone_cargar_iteracion bucket_name project_id dataset temp_table
    archivo :
  monotone (cargar_iteracion bucket_name project_id dataset temp_table
              archivo).
Proof.
  apply monotone_try_except;
    auto using monotone_cargar_un_archivo, monotone_informar_error.
Qed.

Lemma for_each_app {A} (body : A → M unit) l1 l2 w :
  for_each body (l1 ++ l2) w =
  match for_each body l1 w with
  | (Ok _, w1) => for_each body l2 w1
  | (Raise e, w1) => (Raise e, w1)
  end.
Proof.
  revert w. induction l1 as [|x l1 IH]; intros w; simpl; [done|].
  unfold bind. destruct (body x w) as [[[]|e] w1]; [apply IH|done].
Qed.

Lemma for_each_never_raises {A} (body : A → M unit) l w :
  (∀ a w, (body a w).1 = Ok tt) → (for_each body l w).1 = Ok tt.
Proof.
  intros Hb. revert w. induction l as [|x l IH]; intros w; simpl; [done|].
  unfold bind. specialize (Hb x w).
  destruct (body x w) as [[[]|e] w1]; simpl in *; [apply IH|done].
Qed.

Lemma cargar_iteracion_outcome bucket_name project_id dataset temp_table
    archivo w :
  cargar_iteracion bucket_name project_id dataset temp_table archivo w =
  match cargar_un_archivo bucket_name project_id dataset temp_table archivo w
  with
  | (Ok _, w') => (Ok tt, w')
  | (Raise e, w') => (Ok tt, con_linea (linea_de_error archivo e) w')
  end.
Proof.
  unfold cargar_iteracion, try_except, informar_error, linea_de_error.
  destruct (cargar_un_archivo _ _ _ _ archivo w) as [[[]|e] w']; [done|].
  by destruct (is_JSONDecodeError e).
Qed.

Lemma cargar_iteracion_never_raises bucket_name project_id dataset temp_table
    archivo w :
  (cargar_iteracion bucket_name project_id dataset temp_table archivo w).1
  = Ok tt.
Proof.
  rewrite cargar_iteracion_outcome.
  by destruct (cargar_un_archivo _ _ _ _ archivo w) as [[[]|e] w'].
Qed.

Lemma cargar_iteracion_downloads bucket_name project_id dataset temp_table
    nombre :
  records (Call_download bucket_name nombre)
    (cargar_iteracion bucket_name project_id dataset temp_table
       (VStr nombre)).
Proof.
  apply records_try_except; [|apply monotone_informar_error].
  unfold cargar_un_archivo, como_nombre. intros w.
  change (bind (ret nombre) ?k w) with (k nombre w); cbv beta.
  revert w. apply records_bind; [apply records_download|].
  intros c. mono.
Qed.

Lemma for_each_attempts {A} (body : A → M unit) (l : list A) c a :
  (∀ a, monotone (body a)) →
  (∀ a w, (body a w).1 = Ok tt) →
  a ∈ l → records c (body a) → records c (for_each body l).
Proof.
  intros Hmono Hok Hin Hrec. induction l as [|x l IH]; [by inversion Hin|].
  intros w. simpl. unfold bind. specialize (Hok x w).
  destruct (body x w) as [[[]|e] w1] eqn:Hx; simpl in *; [|done].
  apply elem_of_cons in Hin as [->|Hin].
  - eapply extends_calls; [by apply monotone_for_each|].
    specialize (Hrec w). by rewrite Hx in Hrec.
  - by apply IH.
Qed.

Lemma cargar_iteracion_v_premium_outcome bucket_name table_id temp_table
    archivo w :
  cargar_iteracion_v_premium bucket_name table_id temp_table archivo w =
  match cargar_un_archivo_v_premium bucket_name table_id temp_table archivo w
  with
  | (Ok _, w') => (Ok tt, w')
  | (Raise e, w') =>
      (Raise e, con_linea (Error_al_procesar_el_archivo archivo e) w')
  end.
Proof.
  unfold cargar_iteracion_v_premium, try_except.
  by destruct (cargar_un_archivo_v_premium _ _ _ archivo w) as [[[]|e] w'].
Qed.

(** The premium loader on a non-empty Python list: two lines are printed
    and the loop starts. *)
Lemma premium_loader_on_list bucket_name project_id dataset temp_table
    items w :
  items ≠ [] →
  cargar_archivos_en_tabla_temporal_v_premium bucket_name (VList items)
    project_id dataset temp_table w =
  for_each
    (cargar_iteracion_v_premium bucket_name
       (table_id_of project_id dataset temp_table) temp_table)
    items
    (con_linea (Contenido_de_archivos_recibido (VList items))
       (con_linea (Tipo_de_archivos_recibido "list") w)).
Proof. by destruct items. Qed.

(** The plain loader on a Python list, once its clients are built: the
    loop, and nothing else. *)
Lemma plain_loader_on_list bucket_name project_id dataset temp_table items w :
  clientes_disponibles →
  cargar_archivos_en_tabla_temporal bucket_name (VList items) project_id
    dataset temp_table w
  = for_each (cargar_iteracion bucket_name project_id dataset temp_table)
      items w.
Proof.
  intros (Hbq & Hgcs & Hclose). unfold cargar_archivos_en_tabla_temporal.
  rewrite Hbq, Hgcs, Hclose. unfold bind, lift.
  by destruct (for_each _ items w) as [[[]|e] w'].
Qed.


(** On the premium path a failing object is reported and re-raised: the
    loader stops in the world the failure left, whatever follows. *)
Lemma premium_loader_stops_at_failure
    bucket_name project_id dataset temp_table pre archivo post e w w1 w2 :
  let table_id := table_id_of project_id dataset temp_table in
  let iteracion :=
    cargar_iteracion_v_premium bucket_name table_id temp_table in
  let w0 :=
    con_linea (Contenido_de_archivos_recibido (VList (pre ++ archivo :: post)))
      (con_linea (Tipo_de_archivos_recibido "list") w) in
  for_each iteracion pre w0 = (Ok tt, w1) →
  cargar_un_archivo_v_premium bucket_name table_id temp_table archivo w1
    = (Raise e, w2) →
  cargar_archivos_en_tabla_temporal_v_premium bucket_name
    (VList (pre ++ archivo :: post)) project_id dataset temp_table w
  = (Raise e, con_linea (Error_al_procesar_el_archivo archivo e) w2).
Proof.
  intros table_id iteracion w0 Hpre Hfail.
  rewrite premium_loader_on_list by (by destruct pre).
  fold table_id. fold iteracion. fold w0.
  rewrite for_each_app, Hpre. simpl. unfold bind, iteracion at 1.
  by rewrite cargar_iteracion_v_premium_outcome, Hfail.
Qed.

(** *** One turn of each loop, case by case *)

Lemma plain_decode_failure bucket_name project_id dataset temp_table
    nombre contenido e w :
  served w → contenido_de w bucket_name nombre = Some contenido →
  pd_read_json_lines contenido = Raise e →
  cargar_un_archivo bucket_name project_id dataset temp_table (VStr nombre) w
  = (Raise e, tras_llamada (Call_download bucket_name nombre) w).
Proof.
  intros Hs Hc He. unfold cargar_un_archivo, como_nombre.
  change (bind (ret nombre) ?k w) with (k nombre w); cbv beta.
  unfold bind at 1. rewrite (download_served _ _ _ _ Hs Hc).
  unfold bind, lift. by rewrite He.
Qed.

Lemma plain_empty_frame bucket_name project_id dataset temp_table
    nombre contenido df w :
  served w → contenido_de w bucket_name nombre = Some contenido →
  pd_read_json_lines contenido = Ok df → df_empty df = true →
  cargar_un_archivo bucket_name project_id dataset temp_table (VStr nombre) w
  = (Raise (ValueError_no_contiene_datos nombre),
     tras_llamada (Call_download bucket_name nombre) w).
Proof.
  intros Hs Hc Hdf Hempty. unfold cargar_un_archivo, como_nombre.
  change (bind (ret nombre) ?k w) with (k nombre w); cbv beta.
  unfold bind at 1. rewrite (download_served _ _ _ _ Hs Hc).
  unfold bind, lift. by rewrite Hdf, Hempty.
Qed.

(** The plain loader stores the records of the frame the decoder returned,
    one per row of the frame; how many rows a payload yields is decided by
    the decoder alone. *)
Lemma plain_loads_the_frame
    bucket_name project_id dataset temp_table nombre contenido df w :
  let table_id := table_id_of project_id dataset temp_table in
  let w1 := tras_llamada (Call_download bucket_name nombre) w in
  served w → contenido_de w bucket_name nombre = Some contenido →
  pd_read_json_lines contenido = Ok df → df_empty df = false →
  accepted w1 →
  cargar_un_archivo bucket_name project_id dataset temp_table (VStr nombre) w
  = (Ok tt,
     set_bq <[table_id :=
                default [] (bq w !! table_id) ++ to_dict_records df]>
       (tras_llamada (Call_load_table_from_dataframe table_id df) w1)) ∧
  length (to_dict_records df) = length (df_data df).
Proof.
  intros table_id w1 Hs Hc Hdf Hne Ha. split.
  - unfold cargar_un_archivo, como_nombre.
    change (bind (ret nombre) ?k w) with (k nombre w); cbv beta.
    unfold bind at 1. rewrite (download_served _ _ _ _ Hs Hc).
    unfold bind at 1, lift. rewrite Hdf, Hne. fold table_id.
    unfold w1, accepted, tras_llamada in *. clear Hs Hc.
    destruct w as [g b n f c s]. run_world.
    destruct f as [|f1 [|[| |[|]] f]]; simpl in *; done.
  - unfold to_dict_records. by rewrite length_fmap.
Qed.

Lemma plain_loader_step bucket_name project_id dataset temp_table
    archivo resto e w w' :
  clientes_disponibles →
  cargar_un_archivo bucket_name project_id dataset temp_table archivo w
    = (Raise e, w') →
  cargar_archivos_en_tabla_temporal bucket_name (VList (archivo :: resto))
    project_id dataset temp_table w
  = cargar_archivos_en_tabla_temporal bucket_name (VList resto)
      project_id dataset temp_table (con_linea (linea_de_error archivo e) w').
Proof.
  intros Hcl Hfail. rewrite !plain_loader_on_list by done.
  simpl. unfold bind.
  by rewrite cargar_iteracion_outcome, Hfail.
Qed.

Lemma plain_loader_step_ok bucket_name project_id dataset temp_table
    archivo resto w w' :
  clientes_disponibles →
  cargar_un_archivo bucket_name project_id dataset temp_table archivo w
    = (Ok tt, w') →
  cargar_archivos_en_tabla_temporal bucket_name (VList (archivo :: resto))
    project_id dataset temp_table w
  = cargar_archivos_en_tabla_temporal bucket_name (VList resto)
      project_id dataset temp_table w'.
Proof.
  intros Hcl Hok. rewrite !plain_loader_on_list by done.
  simpl. unfold bind.
  by rewrite cargar_iteracion_outcome, Hok.
Qed.

Lemma premium_directory bucket_name table_id temp_table nombre w :
  es_directorio nombre = true →
  cargar_un_archivo_v_premium bucket_name table_id temp_table (VStr nombre) w
  = (Ok tt, con_linea (Advertencia_directorio nombre) w).
Proof.
  intros Hdir. unfold cargar_un_archivo_v_premium, como_nombre.
  change (bind (ret nombre) ?k w) with (k nombre w); cbv beta.
  by rewrite Hdir.
Qed.

Lemma premium_unsupported bucket_name table_id temp_table nombre w :
  es_directorio nombre = false →
  endswith nombre ".json" = false →
  endswith nombre ".parquet" = false →
  endswith nombre ".pkl" = false →
  cargar_un_archivo_v_premium bucket_name table_id temp_table (VStr nombre) w
  = (Ok tt,
     con_linea (Advertencia_formato_no_soportado nombre)
       (con_linea (Leyendo_archivo nombre) w)).
Proof.
  intros Hdir Hj Hp Hk. unfold cargar_un_archivo_v_premium, como_nombre.
  change (bind (ret nombre) ?k w) with (k nombre w); cbv beta.
  rewrite Hdir. unfold leer_datos. rewrite Hj, Hp, Hk. reflexivity.
Qed.

Lemma premium_decode_failure bucket_name table_id temp_table
    nombre contenido e w :
  endswith nombre ".json" = true →
  served w → contenido_de w bucket_name nombre = Some contenido →
  json_loads contenido = Raise e →
  cargar_un_archivo_v_premium bucket_name table_id temp_table (VStr nombre) w
  = (Raise e,
     tras_llamada (Call_download bucket_name nombre)
       (con_linea (Leyendo_archivo nombre) w)).
Proof.
  intros Hj Hs Hc He. unfold cargar_un_archivo_v_premium, como_nombre.
  change (bind (ret nombre) ?k w) with (k nombre w); cbv beta.
  rewrite (json_not_directory _ Hj). unfold leer_datos. rewrite Hj.
  unfold bind at 1. simpl. unfold bind at 1. unfold bind at 1.
  rewrite (download_served _ _ contenido) by done.
  unfold bind, lift. by rewrite He.
Qed.

Lemma premium_loader_step_raise bucket_name project_id dataset temp_table
    archivo resto e w w' :
  let w0 :=
    con_linea (Contenido_de_archivos_recibido (VList (archivo :: resto)))
      (con_linea (Tipo_de_archivos_recibido "list") w) in
  cargar_un_archivo_v_premium bucket_name
    (table_id_of project_id dataset temp_table) temp_table archivo w0
    = (Raise e, w') →
  cargar_archivos_en_tabla_temporal_v_premium bucket_name
    (VList (archivo :: resto)) project_id dataset temp_table w
  = (Raise e, con_linea (Error_al_procesar_el_archivo archivo e) w').
Proof.
  intros w0 Hfail.
  apply (premium_loader_stops_at_failure bucket_name project_id dataset
           temp_table [] archivo resto e w w0 w'); [done|exact Hfail].
Qed.

Lemma premium_loader_step_ok bucket_name project_id dataset temp_table
    archivo resto w w' :
  let w0 :=
    con_linea (Contenido_de_archivos_recibido (VList (archivo :: resto)))
      (con_linea (Tipo_de_archivos_recibido "list") w) in
  cargar_un_archivo_v_premium bucket_name
    (table_id_of project_id dataset temp_table) temp_table archivo w0
    = (Ok tt, w') →
  cargar_archivos_en_tabla_temporal_v_premium bucket_name
    (VList (archivo :: resto)) project_id dataset temp_table w
  = for_each
      (cargar_iteracion_v_premium bucket_name
         (table_id_of project_id dataset temp_table) temp_table)
      resto w'.
Proof.
  intros w0 Hok. rewrite premium_loader_on_list by done. fold w0.
  simpl. unfold bind. by rewrite cargar_iteracion_v_premium_outcome, Hok.
Qed.

(** Appending an empty batch leaves the tables as they are. *)
Lemma set_bq_empty_batch table_id old w :
  bq w !! table_id = Some old → set_bq <[table_id := old ++ []]> w = w.
Proof.
  destruct w as [g b n f c s]. unfold set_bq. simpl. intros Hold.
  by rewrite app_nil_r, insert_id.
Qed.

(** What [insert_rows_json] does, by the service's answer. *)
Lemma insert_rows_json_outcome table_id rows w :
  insert_rows_json table_id rows w =
  let w' := tras_llamada (Call_insert_rows_json table_id rows) w in
  match faults w with
  | Raises e :: _ => (Raise e, w')
  | Rejects (err :: errs) :: _ => (Ok (err :: errs), w')
  | _ =>
      match bq w !! table_id with
      | Some old => (Ok [], set_bq <[table_id := old ++ rows]> w')
      | None => (Raise (GoogleAPIError "Not found: Table"), w')
      end
  end.
Proof.
  unfold tras_llamada. destruct w as [g b n f c s]. run_world.
  destruct f as [|[| |[|]] ?]; simpl; try done;
    by destruct (b !! table_id).
Qed.

Lemma parquet_not_directory nombre :
  endswith nombre ".parquet" = true → es_directorio nombre = false.
Proof. by apply (endswith_not_directory _ _ "t"%char "euqrap."). Qed.

Lemma pkl_not_directory nombre :
  endswith nombre ".pkl" = true → es_directorio nombre = false.
Proof. by apply (endswith_not_directory _ _ "l"%char "kp."). Qed.

Lemma lote_premium_not_directory nombre contenido datos :
  lote_premium nombre contenido datos → es_directorio nombre = false.
Proof.
  unfold lote_premium.
  destruct (endswith nombre ".json") eqn:Hj;
    [intros _; by apply json_not_directory|].
  destruct (endswith nombre ".parquet") eqn:Hp;
    [intros _; by apply parquet_not_directory|].
  destruct (endswith nombre ".pkl") eqn:Hk;
    [intros _; by apply pkl_not_directory|done].
Qed.

(** The format dispatch on an object that downloads and decodes. *)
Lemma leer_datos_lote bucket_name nombre contenido datos w :
  served w → contenido_de w bucket_name nombre = Some contenido →
  lote_premium nombre contenido datos →
  leer_datos bucket_name nombre w
  = (Ok (Some datos), tras_llamada (Call_download bucket_name nombre) w).
Proof.
  intros Hs Hc. unfold lote_premium, leer_datos.
  destruct (endswith nombre ".json").
  { intros Hd. unfold bind at 1. rewrite (download_served _ _ contenido) by done.
    unfold bind, lift. by rewrite Hd. }
  destruct (endswith nombre ".parquet").
  { intros (df & Hd & <-). unfold bind at 1.
    rewrite (download_served _ _ contenido) by done.
    unfold bind, lift. by rewrite Hd. }
  destruct (endswith nombre ".pkl"); [|done].
  intros (df & Hd & <-). unfold bind at 1.
  rewrite (download_served _ _ contenido) by done.
  unfold bind, lift. by rewrite Hd.
Qed.

(** One turn of the premium loop on an object that downloads and decodes to
    [datos]: the batch goes to [insert_rows_json], whose answer decides. *)
Lemma premium_batch bucket_name table_id temp_table nombre contenido datos w :
  let w1 :=
    tras_llamada (Call_download bucket_name nombre)
      (con_linea (Leyendo_archivo nombre) w) in
  served w → contenido_de w bucket_name nombre = Some contenido →
  lote_premium nombre contenido datos →
  cargar_un_archivo_v_premium bucket_name table_id temp_table (VStr nombre) w
  = match
      insert_rows_json table_id datos
        (con_linea (Cargando_datos nombre temp_table) w1)
    with
    | (Ok [], w2) => (Ok tt, con_linea (Datos_cargados nombre) w2)
    | (Ok (err :: errs), w2) =>
        (Raise (RuntimeError_insertar nombre (err :: errs)), w2)
    | (Raise e, w2) => (Raise e, w2)
    end.
Proof.
  intros w1 Hs Hc Hd. unfold cargar_un_archivo_v_premium, como_nombre.
  change (bind (ret nombre) ?k w) with (k nombre w); cbv beta.
  rewrite (lote_premium_not_directory _ _ _ Hd).
  unfold bind at 1. simpl. unfold bind at 1.
  rewrite (leer_datos_lote _ _ contenido datos) by done.
  unfold bind at 1. simpl. unfold bind at 1. fold w1.
  by destruct (insert_rows_json table_id datos _) as [[[|err errs]|e] w2].
Qed.

(** *** The claims about the loaders *)

(** C4 (as amended).  For an object whose payload the decoder rejects with
    [e]: the plain loader, its clients built, prints the error and goes on
    with the remaining objects, raising nothing; the premium loader prints
    the error and raises [e] to its caller.  On both paths the tables are
    as before the object's turn: none of its records is loaded. *)
Theorem decode_failure_loads_nothing
    bucket_name project_id dataset temp_table nombre resto contenido e w :
  served w → contenido_de w bucket_name nombre = Some contenido →
  let w_plain :=
    con_linea (linea_de_error (VStr nombre) e)
      (tras_llamada (Call_download bucket_name nombre) w) in
  let w_premium :=
    con_linea (Error_al_procesar_el_archivo (VStr nombre) e)
      (tras_llamada (Call_download bucket_name nombre)
         (con_linea (Leyendo_archivo nombre)
            (con_linea
               (Contenido_de_archivos_recibido
                  (VList (VStr nombre :: resto)))
               (con_linea (Tipo_de_archivos_recibido "list") w)))) in
  (clientes_disponibles → pd_read_json_lines contenido = Raise e →
     cargar_archivos_en_tabla_temporal bucket_name
       (VList (VStr nombre :: resto)) project_id dataset temp_table w
     = cargar_archivos_en_tabla_temporal bucket_name (VList resto)
         project_id dataset temp_table w_plain ∧
     bq w_plain = bq w) ∧
  (endswith nombre ".json" = true → json_loads contenido = Raise e →
     cargar_archivos_en_tabla_temporal_v_premium bucket_name
       (VList (VStr nombre :: resto)) project_id dataset temp_table w
     = (Raise e, w_premium) ∧
     bq w_premium = bq w).
Proof.
  intros Hs Hc w_plain w_premium. split.
  - intros Hcl He. split; [|done]. apply plain_loader_step; [done|].
    by eapply plain_decode_failure.
  - intros Hj He. split; [|done]. apply premium_loader_step_raise.
    by eapply premium_decode_failure.
Qed.

(** C5 (as amended).  An object that decodes to zero records: on the plain
    path [ValueError] is raised inside the loop, printed, and the loop goes
    on with nothing loaded.  The premium path has no emptiness check,
    whatever the format ([.json] array, [.parquet] or [.pkl] frame): the
    empty batch is passed to [insert_rows_json] like any other, no warning
    is printed and no table changes; the loop goes on when that call is
    accepted, and when the call raises, reports row errors or finds no
    staging table, the loader prints the error and raises to its caller. *)
Theorem empty_payload_policy
    bucket_name project_id dataset temp_table nombre resto contenido w :
  served w → contenido_de w bucket_name nombre = Some contenido →
  let table_id := table_id_of project_id dataset temp_table in
  let w_plain :=
    con_linea
      (Error_al_procesar_el_archivo (VStr nombre)
         (ValueError_no_contiene_datos nombre))
      (tras_llamada (Call_download bucket_name nombre) w) in
  let w1 :=
    tras_llamada (Call_download bucket_name nombre)
      (con_linea (Leyendo_archivo nombre)
         (con_linea
            (Contenido_de_archivos_recibido (VList (VStr nombre :: resto)))
            (con_linea (Tipo_de_archivos_recibido "list") w))) in
  let w2 :=
    tras_llamada (Call_insert_rows_json table_id [])
      (con_linea (Cargando_datos nombre temp_table) w1) in
  let w_premium := con_linea (Datos_cargados nombre) w2 in
  let premium :=
    cargar_archivos_en_tabla_temporal_v_premium bucket_name
      (VList (VStr nombre :: resto)) project_id dataset temp_table w in
  (clientes_disponibles →
   ∀ df, pd_read_json_lines contenido = Ok df → df_empty df = true →
     cargar_archivos_en_tabla_temporal bucket_name
       (VList (VStr nombre :: resto)) project_id dataset temp_table w
     = cargar_archivos_en_tabla_temporal bucket_name (VList resto)
         project_id dataset temp_table w_plain ∧
     bq w_plain = bq w) ∧
  (lote_premium nombre contenido [] →
     (accepted w1 → is_Some (bq w !! table_id) →
        premium
        = for_each
            (cargar_iteracion_v_premium bucket_name table_id temp_table)
            resto w_premium ∧
        bq w_premium = bq w ∧
        filter is_advertencia (stdout w_premium)
        = filter is_advertencia (stdout w)) ∧
     (¬ (accepted w1 ∧ is_Some (bq w !! table_id)) →
        ∃ e,
          premium
          = (Raise e,
             con_linea (Error_al_procesar_el_archivo (VStr nombre) e) w2) ∧
          bq premium.2 = bq w ∧
          filter is_advertencia (stdout premium.2)
          = filter is_advertencia (stdout w))).
Proof.
  intros Hs Hc table_id w_plain w1 w2 w_premium premium. split.
  - intros Hcl df Hdf Hempty. split; [|done].
    rewrite (plain_loader_step _ _ _ _ _ _
               (ValueError_no_contiene_datos nombre)
               _ (tras_llamada (Call_download bucket_name nombre) w)).
    + done.
    + done.
    + by eapply plain_empty_frame.
  - intros Hd. subst table_id. set (table_id := table_id_of _ _ _) in *.
    pose proof (premium_batch bucket_name table_id temp_table nombre contenido
                  []
                  (con_linea
                     (Contenido_de_archivos_recibido
                        (VList (VStr nombre :: resto)))
                     (con_linea (Tipo_de_archivos_recibido "list") w))
                  Hs Hc Hd) as Hturn.
    cbv zeta in Hturn. fold w1 in Hturn.
    rewrite insert_rows_json_outcome in Hturn. cbv zeta in Hturn.
    fold w2 in Hturn.
    change (faults (con_linea (Cargando_datos nombre temp_table) w1))
      with (faults w1) in Hturn.
    change (bq (con_linea (Cargando_datos nombre temp_table) w1) !! table_id)
      with (bq w !! table_id) in Hturn.
    split.
    + intros Ha [old Hold]. split; [|split; [done|]].
      * apply premium_loader_step_ok. fold table_id. rewrite Hturn, Hold.
        unfold accepted in Ha.
        destruct (faults w1) as [|[| |[|]] ?]; try done.
        all: by rewrite (set_bq_empty_batch table_id old w2).
      * simpl. by rewrite !filter_app, !app_nil_r.
    + intros Hno.
      assert (∃ e,
                cargar_un_archivo_v_premium bucket_name table_id temp_table
                  (VStr nombre)
                  (con_linea
                     (Contenido_de_archivos_recibido
                        (VList (VStr nombre :: resto)))
                     (con_linea (Tipo_de_archivos_recibido "list") w))
                = (Raise e, w2)) as [e He].
      { rewrite Hturn. unfold accepted in Hno.
        destruct (faults w1) as [|[| |[|]] ?]; eauto.
        all: destruct (bq w !! table_id) as [old|]; eauto.
        all: exfalso; apply Hno; split; [done|by eexists]. }
      exists e. unfold premium.
      rewrite (premium_loader_step_raise _ _ _ _ _ _ e _ w2) by exact He.
      split; [done|]. split; [done|].
      simpl. by rewrite !filter_app, !app_nil_r.
Qed.


(** C8 (as amended).  On the premium path an object whose name ends in
    none of [.json], [.parquet], [.pkl] is skipped: a warning is printed,
    no call is issued, no table changes, and the loop goes on.  The plain
    path has no dispatch on the suffix: whatever its name, the object is
    downloaded and its content is handed to the JSON-lines decoder; the
    records the decoder returns are loaded into the staging table, an empty
    frame or the decoder's exception is printed, and in each case the loop
    goes on and the loader, its clients built, does not raise. *)
Theorem unsupported_format_skipped_on_premium_path
    bucket_name project_id dataset temp_table nombre resto w :
  endswith nombre ".json" = false →
  endswith nombre ".parquet" = false →
  endswith nombre ".pkl" = false →
  let table_id := table_id_of project_id dataset temp_table in
  let w0 :=
    con_linea (Contenido_de_archivos_recibido (VList (VStr nombre :: resto)))
      (con_linea (Tipo_de_archivos_recibido "list") w) in
  let aviso :=
    if es_directorio nombre then [Advertencia_directorio nombre]
    else [Leyendo_archivo nombre; Advertencia_formato_no_soportado nombre] in
  let w_premium :=
    mkWorld (gcs w) (bq w) (now w) (faults w) (calls w)
      (stdout w0 ++ aviso) in
  let plain :=
    cargar_archivos_en_tabla_temporal bucket_name
      (VList (VStr nombre :: resto)) project_id dataset temp_table in
  let plain_resto :=
    cargar_archivos_en_tabla_temporal bucket_name (VList resto) project_id
      dataset temp_table in
  let w1 := tras_llamada (Call_download bucket_name nombre) w in
  cargar_archivos_en_tabla_temporal_v_premium bucket_name
    (VList (VStr nombre :: resto)) project_id dataset temp_table w
  = for_each (cargar_iteracion_v_premium bucket_name table_id temp_table)
      resto w_premium ∧
  (clientes_disponibles →
     (plain w).1 = Ok tt ∧
     Call_download bucket_name nombre ∈ calls (plain w).2 ∧
     ∀ contenido,
       served w → contenido_de w bucket_name nombre = Some contenido →
       match pd_read_json_lines contenido with
       | Raise e =>
           plain w
           = plain_resto (con_linea (linea_de_error (VStr nombre) e) w1)
       | Ok df =>
           if df_empty df then
             plain w
             = plain_resto
                 (con_linea
                    (Error_al_procesar_el_archivo (VStr nombre)
                       (ValueError_no_contiene_datos nombre)) w1)
           else
             accepted w1 →
             plain w
             = plain_resto
                 (set_bq
                    <[table_id :=
                        filas (bq w) table_id ++ to_dict_records df]>
                    (tras_llamada
                       (Call_load_table_from_dataframe table_id df) w1))
       end).
Proof.
  intros Hj Hp Hk table_id w0 aviso w_premium plain plain_resto w1.
  split.
  - apply premium_loader_step_ok. unfold w_premium, aviso.
    destruct (es_directorio nombre) eqn:Hdir.
    + by rewrite premium_directory.
    + rewrite premium_unsupported by done.
      unfold con_linea. simpl. by rewrite <- !app_assoc.
  - intros Hcl. split; [|split].
    + unfold plain. rewrite plain_loader_on_list by done.
      apply for_each_never_raises. intros. apply cargar_iteracion_never_raises.
    + unfold plain. rewrite plain_loader_on_list by done.
      apply (for_each_attempts _ _ _ (VStr nombre)).
      * intros. apply monotone_cargar_iteracion.
      * intros. apply cargar_iteracion_never_raises.
      * apply list_elem_of_here.
      * apply cargar_iteracion_downloads.
    + intros contenido Hs Hc.
      destruct (pd_read_json_lines contenido) as [df|e] eqn:Hdf.
      * destruct (df_empty df) eqn:Hne.
        -- unfold plain, plain_resto.
           apply (plain_loader_step _ _ _ _ _ _
                    (ValueError_no_contiene_datos nombre)); [done|].
           by eapply plain_empty_frame.
        -- intros Ha. unfold plain, plain_resto.
           apply plain_loader_step_ok; [done|].
           by destruct (plain_loads_the_frame bucket_name project_id dataset
                          temp_table nombre contenido df w Hs Hc Hdf Hne Ha).
      * unfold plain, plain_resto. apply plain_loader_step; [done|].
        by eapply plain_decode_failure.
Qed.

End LoaderProperties.

(** ** The loaders on the example bucket *)

Lemma decode_failure_loads_nothing_witness :
  cargar_archivos_en_tabla_temporal_v_premium "cubo"
    (py_list ["malo.json"; "bueno.json"]) "p" "d" "temp" mundo_de_carga
  = (Raise (JSONDecodeError "Expecting value"),
     con_linea
       (Error_al_procesar_el_archivo (VStr "malo.json")
          (JSONDecodeError "Expecting value"))
       (tras_llamada (Call_download "cubo" "malo.json")
          (con_linea (Leyendo_archivo "malo.json")
             (con_linea
                (Contenido_de_archivos_recibido
                   (py_list ["malo.json"; "bueno.json"]))
                (con_linea (Tipo_de_archivos_recibido "list")
                   mundo_de_carga))))).
Proof.
  destruct (decode_failure_loads_nothing "cubo" "p" "d" "temp" "malo.json"
              [VStr "bueno.json"] "{" (JSONDecodeError "Expecting value")
              mundo_de_carga I eq_refl) as [_ Hpremium].
  destruct (Hpremium eq_refl eq_refl) as [Hrun _]. exact Hrun.
Defined.

(** C4, as the claim states it, fails on the plain path: the payload of
    [malo.json] is rejected by the decoder, and the plain loader returns
    normally; its caller sees no exception. *)
Lemma plain_loader_swallows_decode_error :
  contenido_de mundo_de_carga "cubo" "malo.json" = Some "{" ∧
  pd_read_json_lines "{" = Raise (PandasError "Expected object or value") ∧
  json_loads "{" = Raise (JSONDecodeError "Expecting value") ∧
  (cargar_archivos_en_tabla_temporal "cubo" (py_list ["malo.json"])
     "p" "d" "temp" mundo_de_carga).1 = Ok tt.
Proof. repeat split; vm_compute; reflexivity. Qed.

Lemma empty_payload_policy_witness :
  cargar_archivos_en_tabla_temporal "cubo" (py_list ["nada.json"])
    "p" "d" "temp" mundo_de_carga
  = (Ok tt,
     con_linea
       (Error_al_procesar_el_archivo (VStr "nada.json")
          (ValueError_no_contiene_datos "nada.json"))
       (tras_llamada (Call_download "cubo" "nada.json") mundo_de_carga)) ∧
  cargar_archivos_en_tabla_temporal_v_premium "cubo" (py_list ["vacio.json"])
    "p" "d" "temp" mundo_de_carga
  = (Ok tt,
     mkWorld (gcs mundo_de_carga) (bq mundo_de_carga) 100 []
       [Call_download "cubo" "vacio.json";
        Call_insert_rows_json "p.d.temp" []]
       [Tipo_de_archivos_recibido "list";
        Contenido_de_archivos_recibido (py_list ["vacio.json"]);
        Leyendo_archivo "vacio.json";
        Cargando_datos "vacio.json" "temp";
        Datos_cargados "vacio.json"]).
Proof.
  split.
  - destruct (empty_payload_policy "cubo" "p" "d" "temp" "nada.json" [] ""
                mundo_de_carga I eq_refl) as [Hplain _].
    destruct (Hplain (conj (fun _ => eq_refl) (conj eq_refl eq_refl))
                (mkDataFrame [] []) eq_refl eq_refl) as [Hrun _].
    exact Hrun.
  - destruct (empty_payload_policy "cubo" "p" "d" "temp" "vacio.json" [] "[]"
                mundo_de_carga I eq_refl) as [_ Hpremium].
    destruct (Hpremium eq_refl) as [Hgoes _].
    destruct (Hgoes I (ex_intro _ [] eq_refl)) as [Hrun _].
    exact Hrun.
Defined.

(** C5, as the claim states it, fails on the premium path: [vacio.json]
    decodes to an empty array; the object is not skipped (the empty batch is
    sent to [insert_rows_json]) and no warning is printed.  When the service
    refuses the empty batch, the run does not continue either. *)
Lemma premium_empty_batch_not_skipped :
  let r :=
    cargar_archivos_en_tabla_temporal_v_premium "cubo"
      (py_list ["vacio.json"]) "p" "d" "temp" mundo_de_carga in
  let r' :=
    cargar_archivos_en_tabla_temporal_v_premium "cubo"
      (py_list ["vacio.json"; "bueno.json"]) "p" "d" "temp"
      (mkWorld (gcs mundo_de_carga) (bq mundo_de_carga) 100
         [Served; Raises (GoogleAPIError "No rows present in the request")]
         [] []) in
  contenido_de mundo_de_carga "cubo" "vacio.json" = Some "[]" ∧
  json_loads "[]" = Ok (VList []) ∧
  r.1 = Ok tt ∧
  calls r.2 = [Call_download "cubo" "vacio.json";
               Call_insert_rows_json "p.d.temp" []] ∧
  stdout r.2 = [Tipo_de_archivos_recibido "list";
                Contenido_de_archivos_recibido (py_list ["vacio.json"]);
                Leyendo_archivo "vacio.json";
                Cargando_datos "vacio.json" "temp";
                Datos_cargados "vacio.json"] ∧
  filter is_advertencia (stdout r.2) = [] ∧
  r'.1 = Raise (GoogleAPIError "No rows present in the request") ∧
  calls r'.2 = [Call_download "cubo" "vacio.json";
                Call_insert_rows_json "p.d.temp" []].
Proof. repeat split; vm_compute; reflexivity. Qed.

(** The same on the two frame formats: a [.parquet] and a [.pkl] frame with
    no rows are sent to [insert_rows_json] as empty batches, no warning is
    printed, and the plain loader treats the same objects as errors. *)
Example premium_empty_frames_not_skipped :
  let premium :=
    @cargar_archivos_en_tabla_temporal_v_premium decoders_de_frames_vacios
      "cubo" (py_list ["vacio.parquet"; "vacio.pkl"]) "p" "d" "temp"
      mundo_de_frames_vacios in
  let plain :=
    @cargar_archivos_en_tabla_temporal decoders_de_frames_vacios
      clientes_de_ejemplo
      "cubo" (py_list ["vacio.parquet"; "vacio.pkl"]) "p" "d" "temp"
      mundo_de_frames_vacios in
  premium.1 = Ok tt ∧
  calls premium.2 = [Call_download "cubo" "vacio.parquet";
                     Call_insert_rows_json "p.d.temp" [];
                     Call_download "cubo" "vacio.pkl";
                     Call_insert_rows_json "p.d.temp" []] ∧
  filter is_advertencia (stdout premium.2) = [] ∧
  bq premium.2 = bq mundo_de_frames_vacios ∧
  plain.1 = Ok tt ∧
  stdout plain.2
  = [Error_al_procesar_el_archivo (VStr "vacio.parquet")
       (ValueError_no_contiene_datos "vacio.parquet");
     Error_al_procesar_el_archivo (VStr "vacio.pkl")
       (ValueError_no_contiene_datos "vacio.pkl")].
Proof. repeat split; vm_compute; reflexivity. Qed.



Lemma unsupported_format_skipped_on_premium_path_witness :
  cargar_archivos_en_tabla_temporal_v_premium "cubo" (py_list ["lineas.csv"])
    "p" "d" "temp" mundo_de_carga
  = (Ok tt,
     mkWorld (gcs mundo_de_carga) (bq mundo_de_carga) 100 [] []
       [Tipo_de_archivos_recibido "list";
        Contenido_de_archivos_recibido (py_list ["lineas.csv"]);
        Leyendo_archivo "lineas.csv";
        Advertencia_formato_no_soportado "lineas.csv"]) ∧
  cargar_archivos_en_tabla_temporal "cubo" (py_list ["lineas.csv"])
    "p" "d" "temp" mundo_de_carga
  = (Ok tt,
     mkWorld (gcs mundo_de_carga)
       (<[ "p.d.temp" := [objeto 1; objeto 2] ]> (bq mundo_de_carga)) 100 []
       [Call_download "cubo" "lineas.csv";
        Call_load_table_from_dataframe "p.d.temp" frame_de_dos]
       []).
Proof.
  destruct (unsupported_format_skipped_on_premium_path "cubo" "p" "d" "temp"
              "lineas.csv" [] mundo_de_carga eq_refl eq_refl eq_refl)
    as [Hpremium Hplain].
  split; [exact Hpremium|].
  destruct (Hplain (conj (fun _ => eq_refl) (conj eq_refl eq_refl)))
    as (_ & _ & Hdecoded).
  exact (Hdecoded dos_lineas I eq_refl I).
Defined.

(** C8, as the claim states it, fails on the plain path: [lineas.csv] has
    none of the supported suffixes, and the plain loader downloads it,
    decodes it and loads its two records into the staging table. *)
Lemma plain_loader_decodes_any_suffix :
  let r :=
    cargar_archivos_en_tabla_temporal "cubo" (py_list ["lineas.csv"])
      "p" "d" "temp" mundo_de_carga in
  endswith "lineas.csv" ".json" = false ∧
  endswith "lineas.csv" ".parquet" = false ∧
  endswith "lineas.csv" ".pkl" = false ∧
  r.1 = Ok tt ∧
  calls r.2 = [Call_download "cubo" "lineas.csv";
               Call_load_table_from_dataframe "p.d.temp" frame_de_dos] ∧
  bq mundo_de_carga !! "p.d.temp" = Some [] ∧
  bq r.2 !! "p.d.temp" = Some [objeto 1; objeto 2].
Proof. repeat split; vm_compute; reflexivity. Qed.

(** ** Directory markers *)

(** C3 fails on the non-premium path: the bucket lists the directory marker
    [datos/]; [obtener_archivos_nuevos] reports it as new, and the plain
    loader, given that result, downloads it as a file. *)
Theorem directory_marker_not_excluded :
  (obtener_archivos_nuevos "cubo" "datos/" "p" "d" mundo).1
  = Ok ["datos/"; "datos/a.json"; "datos/c.parquet"] ∧
  Call_download "cubo" "datos/"
  ∈ calls (cargar_archivos_en_tabla_temporal "cubo"
             (py_list ["datos/"; "datos/a.json"; "datos/c.parquet"])
             "p" "d" "temp" mundo).2.
Proof.
  split; [vm_compute; reflexivity|].
  vm_compute. apply list_elem_of_here.
Qed.

(** *** What the premium path does with directory markers *)

(** Whatever the premium intake returns holds no directory marker. *)
Lemma premium_intake_excludes_directories
    bucket_name prefix project_id dataset w archivos_nuevos :
  (obtener_archivos_nuevos_version_premium bucket_name prefix project_id
     dataset w).1 = Ok archivos_nuevos →
  ∀ name, name ∈ archivos_nuevos → es_directorio name = false.
Proof.
  destruct w as [g b n f c s].
  unfold obtener_archivos_nuevos_version_premium. run_world.
  intros Hrun name Hin.
  repeat (case_match; simpl in *; try done; simplify_eq).
  all: apply elem_of_newObjects in Hin as [Hin _];
    apply list_elem_of_filter in Hin as [Hin _];
    by destruct (es_directorio name).
Qed.

(** The premium loader issues no call for a directory marker. *)
Example premium_loader_skips_directory_marker :
  cargar_archivos_en_tabla_temporal_v_premium "cubo" (py_list ["carpeta/"])
    "p" "d" "temp" mundo_de_carga
  = (Ok tt,
     mkWorld (gcs mundo_de_carga) (bq mundo_de_carga) 100 [] []
       [Tipo_de_archivos_recibido "list";
        Contenido_de_archivos_recibido (py_list ["carpeta/"]);
        Advertencia_directorio "carpeta/"]).
Proof. vm_compute. reflexivity. Qed.

(** ** What the plain path loads *)

Example plain_loads_two_lines :
  bq (cargar_archivos_en_tabla_temporal "cubo" (py_list ["lineas.json"])
        "p" "d" "temp" mundo_de_carga).2 !! "p.d.temp"
  = Some [objeto 1; objeto 2].
Proof. vm_compute. reflexivity. Qed.

(** * Further properties of the pipeline *)

(** ** What the functions leave alone *)

#[local] Instance solo_en_preorder T : PreOrder (solo_en T).
Proof.
  split.
  - intros b table_id _. reflexivity.
  - intros b1 b2 b3 H12 H23 table_id Hout.
    rewrite (H23 _ Hout). by apply H12.
Qed.

#[local] Instance crece_en_preorder T : PreOrder (crece_en T).
Proof.
  split.
  - intros b. split; [done|]. split; [|done]. intros table_id. reflexivity.
  - intros b1 b2 b3 (H12 & G12 & E12) (H23 & G23 & E23). split; [|split].
    + intros table_id Hout. rewrite (H23 _ Hout). by apply H12.
    + intros table_id. etrans; [apply G12|apply G23].
    + intros table_id Hsome. by apply E23, E12.
Qed.

Section Keeps.
Context (P : relation (gmap string (list value))) `{!PreOrder P}.

Lemma keeps_same {A} (m : M A) :
  (∀ w, gcs (m w).2 = gcs w ∧ bq (m w).2 = bq w) → keeps P m.
Proof. intros H w. destruct (H w) as [Hg Hb]. by rewrite Hb. Qed.

Lemma keeps_ret {A} (a : A) : keeps P (ret a).
Proof. by apply keeps_same. Qed.

Lemma keeps_raise {A} e : keeps P (@raise A e).
Proof. by apply keeps_same. Qed.

Lemma keeps_lift {A} (r : Res A) : keeps P (lift r).
Proof. by apply keeps_same. Qed.

Lemma keeps_get_world : keeps P get_world.
Proof. by apply keeps_same. Qed.

Lemma keeps_print l : keeps P (print l).
Proof. by apply keeps_same. Qed.

Lemma keeps_api c : keeps P (api c).
Proof. by apply keeps_same. Qed.

Lemma keeps_datetime_now : keeps P datetime_now.
Proof. by apply keeps_same. Qed.

Lemma keeps_bind {A B} (m : M A) (k : A → M B) :
  keeps P m → (∀ a, keeps P (k a)) → keeps P (bind m k).
Proof.
  intros Hm Hk w. unfold bind. destruct (Hm w) as [Hg Hb].
  destruct (m w) as [[a|e] w1]; simpl in *; [|done].
  destruct (Hk a w1) as [Hg' Hb']. split; [congruence|by etrans].
Qed.

Lemma keeps_try_except {A} (m : M A) (h : Exn → M A) :
  keeps P m → (∀ e, keeps P (h e)) → keeps P (try_except m h).
Proof.
  intros Hm Hh w. unfold try_except. destruct (Hm w) as [Hg Hb].
  destruct (m w) as [[a|e] w1]; simpl in *; [done|].
  destruct (Hh e w1) as [Hg' Hb']. split; [congruence|by etrans].
Qed.

Lemma keeps_for_each {A} (body : A → M unit) l :
  (∀ a, keeps P (body a)) → keeps P (for_each body l).
Proof.
  intros Hb. induction l as [|x l IH]; simpl.
  - apply keeps_ret.
  - apply keeps_bind; [apply Hb|]. intros _. exact IH.
Qed.

Lemma keeps_for_list {A B} (f : A → M B) l :
  (∀ a, keeps P (f a)) → keeps P (for_list f l).
Proof.
  intros Hf. induction l as [|x l IH]; simpl.
  - apply keeps_ret.
  - apply keeps_bind; [apply Hf|]. intros y.
    apply keeps_bind; [exact IH|]. intros ys. apply keeps_ret.
Qed.

End Keeps.

(** Decomposes a [keeps] goal along the structure of the action. *)
Ltac keeps_order :=
  try match goal with |- PreOrder _ => apply _ end.

Ltac keeps_step :=
  first
    [ apply keeps_ret | apply keeps_raise | apply keeps_lift
    | apply keeps_get_world | apply keeps_print | apply keeps_api
    | apply keeps_datetime_now
    | apply keeps_bind
    | apply keeps_try_except
    | apply keeps_for_each
    | apply keeps_for_list
    | match goal with
      | |- keeps _ (match ?x with _ => _ end) => destruct x
      | |- keeps _ (if ?b then _ else _) => destruct b
      | |- ∀ _, _ => intros ?
      end ];
  keeps_order.

Lemma keeps_list_blobs P `{!PreOrder P} bucket_name prefix :
  keeps P (list_blobs bucket_name prefix).
Proof. unfold list_blobs. repeat keeps_step. Qed.

Lemma keeps_download P `{!PreOrder P} bucket_name archivo :
  keeps P (download bucket_name archivo).
Proof. unfold download. repeat keeps_step. Qed.

Lemma keeps_select P `{!PreOrder P} table_id :
  keeps P (client_query (SELECT_nombre_archivo table_id)).
Proof. unfold client_query. repeat keeps_step. Qed.

Lemma filas_insert b table_id rows table_id' :
  filas (<[table_id := rows]> b) table_id'
  = if decide (table_id = table_id') then rows else filas b table_id'.
Proof. unfold filas. rewrite lookup_insert. by case_decide. Qed.

Lemma crece_en_append T b table_id old rows :
  table_id ∈ T → filas b table_id = old →
  crece_en T b (<[table_id := old ++ rows]> b).
Proof.
  intros Hin Hold. split; [|split].
  - intros tid Hout. apply lookup_insert_ne. set_solver.
  - intros tid. rewrite filas_insert. case_decide; [|done].
    subst. by apply prefix_app_r.
  - intros tid Hsome. rewrite lookup_insert. by case_decide.
Qed.

Lemma keeps_insert_rows_json T table_id rows :
  table_id ∈ T → keeps (crece_en T) (insert_rows_json table_id rows).
Proof.
  intros Hin w. destruct w as [g b n f c s]. run_world.
  destruct f as [|[| |[|]] f]; simpl; try (split; [done|reflexivity]);
    (destruct (b !! table_id) as [old|] eqn:Hold; simpl;
     [|split; [done|reflexivity]]);
    (split; [done|]); apply crece_en_append; try done;
    unfold filas; by rewrite Hold.
Qed.

Lemma keeps_load_table_from_dataframe T df table_id :
  table_id ∈ T → keeps (crece_en T) (load_table_from_dataframe df table_id).
Proof.
  intros Hin w. destruct w as [g b n f c s]. run_world.
  destruct f as [|[| |[|]] f]; simpl; try (split; [done|reflexivity]);
    (split; [done|]); by apply crece_en_append.
Qed.

Lemma keeps_job_result P `{!PreOrder P} job : keeps P (job_result job).
Proof. unfold job_result. repeat keeps_step. Qed.

Lemma keeps_create_table T table_id :
  table_id ∈ T → keeps (crece_en T) (create_table_exists_ok table_id).
Proof.
  intros Hin w. destruct w as [g b n f c s]. run_world.
  destruct f as [|[] f]; simpl; try (split; [done|reflexivity]);
    (destruct (b !! table_id) as [old|] eqn:Hold; simpl;
     [split; [done|reflexivity]|]);
    (split; [done|]);
    (replace (<[table_id := []]> b) with (<[table_id := [] ++ []]> b) by done);
    apply crece_en_append; try done; unfold filas; by rewrite Hold.
Qed.

Lemma keeps_insert_select T into from :
  into ∈ T → keeps (crece_en T) (client_query (INSERT_INTO_SELECT_ALL into from)).
Proof.
  intros Hin w. destruct w as [g b n f c s]. run_world.
  destruct f as [|[] f]; simpl; try (split; [done|reflexivity]);
    (destruct (b !! into) as [final_rows|] eqn:Hinto; simpl;
     [|split; [done|reflexivity]]);
    (destruct (b !! from) as [temp_rows|] eqn:Hfrom; simpl;
     [|split; [done|reflexivity]]);
    (split; [done|]); apply crece_en_append; try done;
    unfold filas; by rewrite Hinto.
Qed.

Lemma crece_en_solo_en T b b' : crece_en T b b' → solo_en T b b'.
Proof. by intros [H _]. Qed.

Lemma keeps_delete_table T table_id :
  table_id ∈ T → keeps (solo_en T) (delete_table_not_found_ok table_id).
Proof.
  intros Hin w. destruct w as [g b n f c s]. run_world.
  destruct f as [|[] f]; simpl; try (split; [done|reflexivity]);
    (split; [done|]); intros tid Hout; apply lookup_delete_ne; set_solver.
Qed.

Lemma keeps_weaken (P Q : relation (gmap string (list value))) {A} (m : M A) :
  (∀ b b', P b b' → Q b b') → keeps P m → keeps Q m.
Proof. intros HPQ Hm w. destruct (Hm w). auto. Qed.

Lemma keeps_obtener_archivos_nuevos P `{!PreOrder P}
    bucket_name prefix project_id dataset :
  keeps P (obtener_archivos_nuevos bucket_name prefix project_id dataset).
Proof.
  unfold obtener_archivos_nuevos, obtener_archivos_nuevos_try.
  repeat first [apply keeps_select | apply keeps_list_blobs | keeps_step];
    keeps_order.
Qed.

Lemma keeps_obtener_archivos_nuevos_version_premium P `{!PreOrder P}
    bucket_name prefix project_id dataset :
  keeps P
    (obtener_archivos_nuevos_version_premium bucket_name prefix project_id
       dataset).
Proof.
  unfold obtener_archivos_nuevos_version_premium.
  repeat first [apply keeps_select | apply keeps_list_blobs | keeps_step];
    keeps_order.
Qed.

(** X1.  Neither intake variant writes anything: whatever the services do,
    the buckets and the tables are after the call as they were before. *)
Theorem intake_is_read_only bucket_name prefix project_id dataset w :
  let w1 := (obtener_archivos_nuevos bucket_name prefix project_id dataset w).2 in
  let w2 :=
    (obtener_archivos_nuevos_version_premium bucket_name prefix project_id
       dataset w).2 in
  (gcs w1 = gcs w ∧ bq w1 = bq w) ∧ (gcs w2 = gcs w ∧ bq w2 = bq w).
Proof.
  split.
  - destruct (keeps_obtener_archivos_nuevos eq bucket_name prefix project_id
                dataset w). auto.
  - destruct (keeps_obtener_archivos_nuevos_version_premium eq bucket_name
                prefix project_id dataset w). auto.
Qed.

Section LoaderFrame.
Context `{!Decoders} `{!Clients}.

Lemma keeps_cargar_iteracion bucket_name project_id dataset temp_table archivo :
  keeps (crece_en {[table_id_of project_id dataset temp_table]})
    (cargar_iteracion bucket_name project_id dataset temp_table archivo).
Proof.
  unfold cargar_iteracion, cargar_un_archivo, como_nombre, informar_error.
  repeat first
    [ apply keeps_download | apply keeps_job_result
    | apply keeps_load_table_from_dataframe; set_solver
    | keeps_step ];
    keeps_order.
Qed.

Lemma keeps_cargar_iteracion_v_premium bucket_name table_id temp_table archivo :
  keeps (crece_en {[table_id]})
    (cargar_iteracion_v_premium bucket_name table_id temp_table archivo).
Proof.
  unfold cargar_iteracion_v_premium, cargar_un_archivo_v_premium, como_nombre,
    leer_datos.
  repeat first
    [ apply keeps_download
    | apply keeps_insert_rows_json; set_solver
    | keeps_step ];
    keeps_order.
Qed.

(** X2.  Both loaders write to the staging table only, and only by adding
    rows at its end: whatever the argument and whatever the services do, the
    buckets and every other table are as before, and the rows the staging
    table held are still there, in front. *)
Theorem loaders_only_append_to_staging
    bucket_name archivos project_id dataset temp_table w :
  let staging := table_id_of project_id dataset temp_table in
  let w1 :=
    (cargar_archivos_en_tabla_temporal bucket_name archivos project_id dataset
       temp_table w).2 in
  let w2 :=
    (cargar_archivos_en_tabla_temporal_v_premium bucket_name archivos
       project_id dataset temp_table w).2 in
  (gcs w1 = gcs w ∧
   (∀ table_id, table_id ≠ staging → bq w1 !! table_id = bq w !! table_id) ∧
   filas (bq w) staging `prefix_of` filas (bq w1) staging) ∧
  (gcs w2 = gcs w ∧
   (∀ table_id, table_id ≠ staging → bq w2 !! table_id = bq w !! table_id) ∧
   filas (bq w) staging `prefix_of` filas (bq w2) staging).
Proof.
  intros staging w1 w2. split.
  - assert (keeps (crece_en {[staging]})
              (cargar_archivos_en_tabla_temporal bucket_name archivos
                 project_id dataset temp_table)) as Hk.
    { unfold cargar_archivos_en_tabla_temporal.
      repeat first
        [ apply keeps_for_each; [keeps_order|intros ?]
        | apply keeps_cargar_iteracion
        | keeps_step ];
        keeps_order. }
    destruct (Hk w) as (Hg & Hout & Hrows & _).
    split; [done|]. split; [|done].
    intros table_id Hne. apply Hout. set_solver.
  - assert (keeps (crece_en {[staging]})
              (cargar_archivos_en_tabla_temporal_v_premium bucket_name archivos
                 project_id dataset temp_table)) as Hk.
    { unfold cargar_archivos_en_tabla_temporal_v_premium, normalizar_archivos.
      repeat first [apply keeps_cargar_iteracion_v_premium | keeps_step];
        keeps_order. }
    destruct (Hk w) as (Hg & Hout & Hrows & _).
    split; [done|]. split; [|done].
    intros table_id Hne. apply Hout. set_solver.
Qed.

End LoaderFrame.

Lemma keeps_registrar_archivos_en_bq project_id dataset archivos_nuevos :
  keeps (crece_en {[table_id_of project_id dataset "archivos_procesados"]})
    (registrar_archivos_en_bq project_id dataset archivos_nuevos).
Proof.
  unfold registrar_archivos_en_bq, fila_de_registro.
  repeat first [apply keeps_insert_rows_json; set_solver | keeps_step];
    keeps_order.
Qed.

(** X3.  The ledger writer writes to the ledger table only, and only by
    adding rows at its end, whatever the services do. *)
Theorem ledger_writer_only_appends_to_ledger
    project_id dataset archivos_nuevos w :
  let ledger := table_id_of project_id dataset "archivos_procesados" in
  let w' := (registrar_archivos_en_bq project_id dataset archivos_nuevos w).2 in
  gcs w' = gcs w ∧
  (∀ table_id, table_id ≠ ledger → bq w' !! table_id = bq w !! table_id) ∧
  filas (bq w) ledger `prefix_of` filas (bq w') ledger.
Proof.
  intros ledger w'.
  destruct (keeps_registrar_archivos_en_bq project_id dataset archivos_nuevos w)
    as (Hg & Hout & Hrows & _).
  split; [done|]. split; [|apply Hrows].
  intros table_id Hne. apply Hout. set_solver.
Qed.

(** X4.  Promotion touches the staging table and the final table only,
    whatever the services do; the buckets, the ledger and every other table
    are as before. *)
Theorem promotion_touches_two_tables
    project_id dataset temp_table final_table w :
  let staging := table_id_of project_id dataset temp_table in
  let final := table_id_of project_id dataset final_table in
  let w' :=
    (mover_datos_y_borrar_temp project_id dataset temp_table final_table w).2 in
  gcs w' = gcs w ∧
  ∀ table_id, table_id ≠ staging → table_id ≠ final →
              bq w' !! table_id = bq w !! table_id.
Proof.
  intros staging final w'.
  assert (keeps (solo_en {[staging; final]})
            (mover_datos_y_borrar_temp project_id dataset temp_table
               final_table)) as Hk.
  { unfold mover_datos_y_borrar_temp.
    apply keeps_bind; keeps_order.
    - eapply keeps_weaken; [apply crece_en_solo_en|].
      apply keeps_insert_select. set_solver.
    - intros _. apply keeps_bind; keeps_order.
      + apply keeps_delete_table. set_solver.
      + intros _. apply keeps_ret; keeps_order. }
  destruct (Hk w) as [Hg Hout]. split; [done|].
  intros table_id Hs Hf. apply Hout.
  rewrite elem_of_union, !elem_of_singleton. tauto.
Qed.

(** X5.  [crear_tabla_temporal] creates the table only if it is absent: when
    it returns, the table exists and holds the rows it held before (none if
    it is new); when it raises (building the client or the table object, or
    the request itself), no table has changed.  In both cases every other
    table and the buckets are as before. *)
Theorem crear_tabla_temporal_creates_if_absent `{!Clients}
    project_id dataset temp_table schema w :
  let table_id := table_id_of project_id dataset temp_table in
  let r := crear_tabla_temporal project_id dataset temp_table schema w in
  match r.1 with
  | Ok mensaje =>
      bq r.2 !! table_id = Some (filas (bq w) table_id) ∧
      mensaje = "Tabla temporal " +:+ table_id +:+ " creada."
  | Raise e => bq r.2 = bq w
  end ∧
  gcs r.2 = gcs w ∧
  ∀ other, other ≠ table_id → bq r.2 !! other = bq w !! other.
Proof.
  intros table_id r. unfold r, crear_tabla_temporal, filas. fold table_id.
  destruct (bigquery_Client (Some project_id)) as [[]|e]; [|done].
  destruct (bigquery_Table table_id schema) as [[]|e]; [|done].
  destruct w as [g b n f c s]. run_world.
  destruct f as [|[] f]; simpl; try done;
    (destruct (b !! table_id) as [old|] eqn:Hold; simpl;
     [by rewrite Hold|]);
    rewrite lookup_insert_eq; (split; [done|]); (split; [done|]);
    intros other Hne; by rewrite lookup_insert_ne.
Qed.

(** ** How the two intake variants relate *)

Lemma newObjects_filter (Q : string → Prop) `{!∀ x, Decision (Q x)} L S :
  newObjects (filter Q L) S = filter Q (newObjects L S).
Proof.
  unfold newObjects. rewrite !list_filter_filter.
  apply list_filter_iff. intros x. tauto.
Qed.

(** Whenever the [try] block of the non-premium intake returns, in whatever
    world, both services were read and it returns the listing minus the
    ledger. *)
Lemma obtener_archivos_nuevos_try_returns
    bucket_name prefix project_id dataset w nuevos :
  (obtener_archivos_nuevos_try bucket_name prefix project_id dataset w).1
    = Ok nuevos →
  ∃ L B,
    listing w bucket_name prefix = Some L ∧
    ledger_names w project_id dataset = Some B ∧
    nuevos = newObjects L (list_to_set B).
Proof.
  destruct w as [g b n f c s].
  unfold obtener_archivos_nuevos_try, listing, ledger_names. run_world.
  intros Hrun.
  repeat (case_match; simpl in *; try done; simplify_eq).
  all: repeat match goal with
         | H : ?x = Some _ |- context [?x] => rewrite H
         end;
    simpl; by eexists _, _.
Qed.

Lemma premium_intake_follows_try bucket_name prefix project_id dataset w :
  (obtener_archivos_nuevos_version_premium bucket_name prefix project_id
     dataset w).1
  = match
      (obtener_archivos_nuevos_try bucket_name prefix project_id dataset w).1
    with
    | Ok nuevos => Ok (filter (fun name => ¬ es_directorio name) nuevos)
    | Raise e => Raise e
    end.
Proof.
  destruct w as [g b n f c s].
  unfold obtener_archivos_nuevos_version_premium, obtener_archivos_nuevos_try.
  run_world.
  repeat (case_match; simpl in *; try done; simplify_eq).
  all: simpl; by rewrite ?newObjects_filter.
Qed.

(** X6.  In every world the premium intake returns what the [try] block of
    the non-premium intake returns, without the names ending in '/'; and
    where that block raises, the premium intake raises the same exception
    to its caller, while the non-premium intake returns the empty list. *)
Theorem premium_intake_agrees_with_plain
    bucket_name prefix project_id dataset w :
  let plain :=
    (obtener_archivos_nuevos bucket_name prefix project_id dataset w).1 in
  let premium :=
    (obtener_archivos_nuevos_version_premium bucket_name prefix project_id
       dataset w).1 in
  match
    (obtener_archivos_nuevos_try bucket_name prefix project_id dataset w).1
  with
  | Ok nuevos =>
      plain = Ok nuevos ∧
      premium = Ok (filter (fun name => ¬ es_directorio name) nuevos)
  | Raise e => plain = Ok [] ∧ premium = Raise e
  end.
Proof.
  simpl. rewrite premium_intake_follows_try, obtener_archivos_nuevos_outcome.
  by destruct (obtener_archivos_nuevos_try _ _ _ _ w) as [[l|e] w'].
Qed.

(** X7.  Whatever the services do, a name that either intake variant
    returns is listed in the bucket under the prefix and is not in the
    ledger; a name the premium variant returns does not end in '/'. *)
Theorem intake_reports_only_unprocessed
    bucket_name prefix project_id dataset w nuevos x :
  x ∈ nuevos →
  ((obtener_archivos_nuevos bucket_name prefix project_id dataset w).1
     = Ok nuevos →
   ∃ L B,
     listing w bucket_name prefix = Some L ∧
     ledger_names w project_id dataset = Some B ∧
     x ∈ L ∧ x ∉ B) ∧
  ((obtener_archivos_nuevos_version_premium bucket_name prefix project_id
      dataset w).1 = Ok nuevos →
   ∃ L B,
     listing w bucket_name prefix = Some L ∧
     ledger_names w project_id dataset = Some B ∧
     x ∈ L ∧ (x ∉ B) ∧ es_directorio x = false).
Proof.
  intros Hx.
  assert (∀ l, (obtener_archivos_nuevos_try bucket_name prefix project_id
                  dataset w).1 = Ok l → x ∈ l →
               ∃ L B,
                 listing w bucket_name prefix = Some L ∧
                 ledger_names w project_id dataset = Some B ∧
                 x ∈ L ∧ x ∉ B) as Htry.
  { intros l Hl Hxl.
    destruct (obtener_archivos_nuevos_try_returns _ _ _ _ _ _ Hl)
      as (L & B & HL & HB & ->).
    exists L, B. apply elem_of_newObjects in Hxl as [HxL HxB].
    rewrite elem_of_list_to_set in HxB. done. }
  split; intros Hrun.
  - rewrite obtener_archivos_nuevos_outcome in Hrun.
    destruct (obtener_archivos_nuevos_try _ _ _ _ w) as [[l|e] w'] eqn:Htr;
      simpl in *; simplify_eq; [|by apply elem_of_nil in Hx].
    by apply (Htry nuevos).
  - rewrite premium_intake_follows_try in Hrun.
    destruct (obtener_archivos_nuevos_try _ _ _ _ w) as [[l|e] w'] eqn:Htr;
      simpl in *; simplify_eq.
    apply list_elem_of_filter in Hx as [Hdir Hx].
    destruct (Htry l eq_refl Hx) as (L & B & HL & HB & HxL & HxB).
    exists L, B. repeat split; try done. by destruct (es_directorio x).
Qed.

Lemma intake_reports_only_unprocessed_witness :
  ∃ L B,
    listing mundo "cubo" "datos/" = Some L ∧
    ledger_names mundo "p" "d" = Some B ∧
    "datos/c.parquet" ∈ L ∧ ("datos/c.parquet" ∉ B) ∧
    es_directorio "datos/c.parquet" = false.
Proof.
  assert ("datos/c.parquet" ∈ ["datos/a.json"; "datos/c.parquet"]) as Hx.
  { apply list_elem_of_further, list_elem_of_here. }
  destruct (intake_reports_only_unprocessed "cubo" "datos/" "p" "d" mundo
              ["datos/a.json"; "datos/c.parquet"] "datos/c.parquet" Hx)
    as [_ Hpremium].
  apply Hpremium. reflexivity.
Defined.

(** ** Running the intake again after the ledger was written *)

Lemma listing_gcs w w' bucket_name prefix :
  gcs w' = gcs w → listing w' bucket_name prefix = listing w bucket_name prefix.
Proof. unfold listing. by intros ->. Qed.

Lemma ledger_names_bq w w' project_id dataset :
  bq w' = bq w →
  ledger_names w' project_id dataset = ledger_names w project_id dataset.
Proof. unfold ledger_names. by intros ->. Qed.

Lemma intake_keeps_faults_empty bucket_name prefix project_id dataset w :
  faults w = [] →
  faults (obtener_archivos_nuevos bucket_name prefix project_id dataset w).2
    = [] ∧
  faults (obtener_archivos_nuevos_version_premium bucket_name prefix
            project_id dataset w).2 = [].
Proof.
  destruct w as [g b n f c s]. simpl. intros ->.
  unfold obtener_archivos_nuevos, obtener_archivos_nuevos_try,
    obtener_archivos_nuevos_version_premium.
  run_world. split; repeat (case_match; simpl in *; try done; simplify_eq).
  all: done.
Qed.

Lemma registrar_keeps_faults_empty project_id dataset archivos_nuevos w :
  faults w = [] →
  faults (registrar_archivos_en_bq project_id dataset archivos_nuevos w).2 = [].
Proof.
  intros Hf. destruct archivos_nuevos as [|archivo resto]; [done|].
  rewrite registrar_archivos_en_bq_outcome.
  destruct w as [g b n f c s]. simpl in Hf. subst f. run_world.
  repeat (case_match; simpl in *; try done; simplify_eq).
  all: done.
Qed.

Lemma newObjects_once_ledgered (L B : list string) :
  newObjects L (list_to_set (B ++ newObjects L (list_to_set B))) = [].
Proof.
  apply elem_of_nil_inv. intros x Hx.
  apply elem_of_newObjects in Hx as [HxL Hout].
  apply Hout. rewrite elem_of_list_to_set, elem_of_app.
  destruct (decide (x ∈ B)) as [HB|HB]; [by left|right].
  apply elem_of_newObjects. by rewrite elem_of_list_to_set.
Qed.

(** X8.  The ledger makes the intake idempotent.  When the services answer:
    once [registrar_archivos_en_bq] has recorded the names an intake variant
    returned, the same variant run again on the unchanged bucket returns the
    empty list, and recording that empty list changes nothing. *)
Theorem rerun_after_ledgering_finds_nothing
    bucket_name prefix project_id dataset w L B :
  faults w = [] →
  ledger_names w project_id dataset = Some B →
  listing w bucket_name prefix = Some L →
  let plain := obtener_archivos_nuevos bucket_name prefix project_id dataset in
  let premium :=
    obtener_archivos_nuevos_version_premium bucket_name prefix project_id
      dataset in
  let registrar := registrar_archivos_en_bq project_id dataset in
  (∃ nuevos,
     (plain w).1 = Ok nuevos ∧
     (plain (registrar nuevos (plain w).2).2).1 = Ok []) ∧
  (∃ nuevos,
     (premium w).1 = Ok nuevos ∧
     (premium (registrar nuevos (premium w).2).2).1 = Ok []) ∧
  ∀ w', registrar [] w' = (Ok tt, w').
Proof.
  intros Hf HB HL plain premium registrar. subst plain premium registrar.
  destruct (intake_runs w bucket_name prefix project_id dataset L B Hf HB HL)
    as [Hplain Hpremium].
  destruct (intake_keeps_faults_empty bucket_name prefix project_id dataset w Hf)
    as [Hf1 Hf2].
  destruct (keeps_obtener_archivos_nuevos eq bucket_name prefix project_id
              dataset w) as [Hg1 Hb1].
  destruct (keeps_obtener_archivos_nuevos_version_premium eq bucket_name prefix
              project_id dataset w) as [Hg2 Hb2].
  assert (∀ w1 nuevos,
            faults w1 = [] → gcs w1 = gcs w → bq w1 = bq w →
            let w2 :=
              (registrar_archivos_en_bq project_id dataset nuevos w1).2 in
            faults w2 = [] ∧
            ledger_names w2 project_id dataset = Some (B ++ nuevos) ∧
            listing w2 bucket_name prefix = Some L) as Hreg.
  { intros w1 nuevos Hfw Hgw Hbw w2. split; [|split].
    - by apply registrar_keeps_faults_empty.
    - apply registrar_archivos_en_bq_appends.
      + unfold accepted. by rewrite Hfw.
      + by rewrite (ledger_names_bq w).
    - rewrite <- HL.
      rewrite (listing_gcs w1), (listing_gcs w); [done|done|].
      by destruct (keeps_registrar_archivos_en_bq project_id dataset nuevos w1). }
  split; [|split; [|done]].
  - eexists. split; [exact Hplain|].
    destruct (Hreg _ (newObjects L (list_to_set B)) Hf1 Hg1 (eq_sym Hb1))
      as (Hf' & HB' & HL').
    destruct (intake_runs _ bucket_name prefix project_id dataset L _
                Hf' HB' HL') as [-> _].
    by rewrite newObjects_once_ledgered.
  - eexists. split; [exact Hpremium|].
    destruct (Hreg _ (newObjects (filter (fun name => ¬ es_directorio name) L)
                        (list_to_set B)) Hf2 Hg2 (eq_sym Hb2))
      as (Hf' & HB' & HL').
    destruct (intake_runs _ bucket_name prefix project_id dataset L _
                Hf' HB' HL') as [_ ->].
    by rewrite newObjects_once_ledgered.
Qed.

Lemma rerun_after_ledgering_finds_nothing_witness :
  (obtener_archivos_nuevos_version_premium "cubo" "datos/" "p" "d"
     (registrar_archivos_en_bq "p" "d" ["datos/a.json"; "datos/c.parquet"]
        (obtener_archivos_nuevos_version_premium "cubo" "datos/" "p" "d"
           mundo).2).2).1 = Ok [].
Proof.
  destruct (rerun_after_ledgering_finds_nothing "cubo" "datos/" "p" "d" mundo
              ["datos/"; "datos/a.json"; "datos/b.json"; "datos/c.parquet"]
              ["datos/b.json"] eq_refl eq_refl eq_refl)
    as (_ & (nuevos & Hrun & Hrerun) & _).
  assert (nuevos = ["datos/a.json"; "datos/c.parquet"]) as ->.
  { vm_compute in Hrun. by inversion Hrun. }
  exact Hrerun.
Defined.

(** ** The ledger writer when the insert is accepted *)

(** X9.  When the ledger table exists and the service accepts the insert,
    [registrar_archivos_en_bq] sends one insert carrying one row per name,
    in the order of the argument, and the ledger then holds its former rows
    followed by these rows; names the ledger already holds are written
    again. *)
Theorem ledger_writer_records_each_name
    project_id dataset archivos_nuevos w old :
  let ledger := table_id_of project_id dataset "archivos_procesados" in
  let r := registrar_archivos_en_bq project_id dataset archivos_nuevos w in
  let filas_nuevas := filas_de_registro (now w) archivos_nuevos in
  archivos_nuevos ≠ [] → accepted w → bq w !! ledger = Some old →
  r.1 = Ok tt ∧
  bq r.2 !! ledger = Some (old ++ filas_nuevas) ∧
  omap nombre_archivo filas_nuevas = archivos_nuevos ∧
  length filas_nuevas = length archivos_nuevos ∧
  calls r.2 = calls w ++ [Call_insert_rows_json ledger filas_nuevas] ∧
  stdout r.2
  = stdout w ++ [Registrando_archivos archivos_nuevos;
                 Archivos_nuevos_registrados archivos_nuevos].
Proof.
  intros ledger r filas_nuevas Hne Ha Hold.
  assert (length filas_nuevas = length archivos_nuevos) as Hlen.
  { unfold filas_nuevas. generalize (now w).
    induction archivos_nuevos as [|a l IH]; intros t; [done|].
    simpl. f_equal. destruct l; [done|]. by apply IH. }
  destruct archivos_nuevos as [|archivo resto]; [done|].
  unfold r. rewrite registrar_archivos_en_bq_outcome. fold ledger.
  erewrite insert_rows_json_accepted; [|exact Ha|exact Hold].
  simpl. rewrite lookup_insert_eq.
  repeat split; try done.
  - f_equal. apply nombres_de_filas_de_registro.
  - by rewrite <- app_assoc.
Qed.

Lemma ledger_writer_records_each_name_witness :
  ledger_names
    (registrar_archivos_en_bq "p" "d" ["datos/a.json"; "datos/b.json"] mundo).2
    "p" "d"
  = Some ["datos/b.json"; "datos/a.json"; "datos/b.json"].
Proof.
  assert (["datos/a.json"; "datos/b.json"] ≠ []) as Hne by discriminate.
  destruct (ledger_writer_records_each_name "p" "d"
              ["datos/a.json"; "datos/b.json"] mundo
              [fila_ledger "datos/b.json"] Hne I eq_refl)
    as (_ & Hrows & _).
  unfold ledger_names. rewrite Hrows. reflexivity.
Defined.

(** ** Promotion when a table is missing *)

(** X10.  When the staging table or the final table does not exist,
    [mover_datos_y_borrar_temp] raises after the copy statement: no table
    has changed and the delete is never sent. *)
Theorem promotion_needs_both_tables
    project_id dataset temp_table final_table w :
  let staging := table_id_of project_id dataset temp_table in
  let final := table_id_of project_id dataset final_table in
  let r := mover_datos_y_borrar_temp project_id dataset temp_table final_table w in
  bq w !! staging = None ∨ bq w !! final = None →
  (∃ e, r.1 = Raise e) ∧
  bq r.2 = bq w ∧
  calls r.2 = calls w ++ [Call_query (INSERT_INTO_SELECT_ALL final staging)].
Proof.
  intros staging final r Hmissing. unfold r, mover_datos_y_borrar_temp.
  fold staging. fold final. destruct w as [g b n f c s]. simpl in Hmissing.
  run_world.
  destruct (b !! final) as [final_rows|] eqn:Hfinal,
           (b !! staging) as [temp_rows|] eqn:Hstaging;
    [by destruct Hmissing| | |];
    destruct f as [|[] f]; simpl; rewrite ?Hfinal, ?Hstaging; simpl; eauto.
Qed.

Lemma promotion_needs_both_tables_witness :
  bq (mover_datos_y_borrar_temp "p" "d" "temp" "final" mundo_de_carga).2
  = bq mundo_de_carga.
Proof.
  destruct (promotion_needs_both_tables "p" "d" "temp" "final" mundo_de_carga)
    as (_ & Hbq & _); [by right|exact Hbq].
Defined.

(** ** The arguments the loaders accept *)

Section LoaderEdges.
Context `{!Decoders} `{!Clients}.


(** X12.  Where the plain loader can raise.  An exception reaches its
    caller in three cases only, all of them outside the loop: building one
    of the two clients raises (nothing else has been done), the argument is
    not a list ([TypeError], raised once the clients are built and before
    any request), or closing the client after the loop raises.  For a list
    the loop always runs to its end, whatever the services do and whatever
    the objects hold: no exception raised for an element reaches the
    caller. *)
Theorem plain_loader_raises_only_outside_its_loop
    bucket_name archivos project_id dataset temp_table w :
  let r :=
    cargar_archivos_en_tabla_temporal bucket_name archivos project_id dataset
      temp_table w in
  match bigquery_Client None, storage_Client with
  | Raise e, _ => r = (Raise e, w)
  | Ok _, Raise e => r = (Raise e, w)
  | Ok _, Ok _ =>
      match archivos with
      | VList items =>
          let bucle :=
            for_each
              (cargar_iteracion bucket_name project_id dataset temp_table)
              items w in
          bucle.1 = Ok tt ∧ r = (client_close, bucle.2)
      | _ => r = (Raise TypeError_archivos_no_es_lista, w)
      end
  end.
Proof.
  intros r. unfold r, cargar_archivos_en_tabla_temporal. clear r.
  destruct (bigquery_Client None) as [[]|e]; [|done].
  destruct storage_Client as [[]|e]; [|done].
  destruct archivos as [| | | | |items|]; try reflexivity.
  pose proof (for_each_never_raises
                (cargar_iteracion bucket_name project_id dataset temp_table)
                items w
                (cargar_iteracion_never_raises bucket_name project_id dataset
                   temp_table)) as Hok.
  split; [exact Hok|].
  unfold bind, lift. simpl.
  destruct (for_each _ items w) as [[[]|e] w']; [done|discriminate].
Qed.

Lemma premium_non_array bucket_name table_id temp_table nombre contenido v w :
  endswith nombre ".json" = true →
  served w → contenido_de w bucket_name nombre = Some contenido →
  json_loads contenido = Ok v → (∀ datos, v ≠ VList datos) →
  cargar_un_archivo_v_premium bucket_name table_id temp_table (VStr nombre) w
  = (Raise (ValueError_no_es_array nombre),
     tras_llamada (Call_download bucket_name nombre)
       (con_linea (Leyendo_archivo nombre) w)).
Proof.
  intros Hj Hs Hc Hv Hno. unfold cargar_un_archivo_v_premium, como_nombre.
  change (bind (ret nombre) ?k w) with (k nombre w); cbv beta.
  rewrite (json_not_directory _ Hj). unfold leer_datos. rewrite Hj.
  unfold bind at 1. simpl. unfold bind at 1. unfold bind at 1.
  rewrite (download_served _ _ contenido) by done.
  unfold bind, lift. rewrite Hv.
  destruct v as [| | | | |datos|]; try reflexivity. by destruct (Hno datos).
Qed.

(** X13.  On the premium path a [.json] object whose JSON root is not an
    array is refused: [ValueError] is printed and raised to the caller, and
    no table has changed. *)
Theorem premium_json_root_must_be_array
    bucket_name project_id dataset temp_table nombre resto contenido v w :
  let r :=
    cargar_archivos_en_tabla_temporal_v_premium bucket_name
      (VList (VStr nombre :: resto)) project_id dataset temp_table w in
  endswith nombre ".json" = true →
  served w → contenido_de w bucket_name nombre = Some contenido →
  json_loads contenido = Ok v → (∀ datos, v ≠ VList datos) →
  r.1 = Raise (ValueError_no_es_array nombre) ∧
  bq r.2 = bq w ∧
  last (stdout r.2)
  = Some (Error_al_procesar_el_archivo (VStr nombre)
            (ValueError_no_es_array nombre)).
Proof.
  intros r Hj Hs Hc Hv Hno. unfold r.
  erewrite premium_loader_step_raise;
    [|by eapply premium_non_array]. simpl.
  by rewrite last_snoc.
Qed.

Lemma premium_rows_rejected bucket_name table_id temp_table
    nombre contenido datos err errs fs w :
  endswith nombre ".json" = true →
  served w → contenido_de w bucket_name nombre = Some contenido →
  json_loads contenido = Ok (VList datos) →
  tail (faults w) = Rejects (err :: errs) :: fs →
  cargar_un_archivo_v_premium bucket_name table_id temp_table (VStr nombre) w
  = (Raise (RuntimeError_insertar nombre (err :: errs)),
     tras_llamada (Call_insert_rows_json table_id datos)
       (con_linea (Cargando_datos nombre temp_table)
          (tras_llamada (Call_download bucket_name nombre)
             (con_linea (Leyendo_archivo nombre) w)))).
Proof.
  intros Hj Hs Hc Hd Hf. unfold cargar_un_archivo_v_premium, como_nombre.
  change (bind (ret nombre) ?k w) with (k nombre w); cbv beta.
  rewrite (json_not_directory _ Hj). unfold leer_datos. rewrite Hj.
  unfold bind at 1. simpl. unfold bind at 1. unfold bind at 1.
  rewrite (download_served _ _ contenido) by done.
  unfold bind at 1, lift. rewrite Hd. simpl.
  unfold bind at 1. simpl. unfold bind at 1.
  unfold insert_rows_json, bind, api, tras_llamada, con_linea, ret. simpl.
  rewrite Hf. reflexivity.
Qed.

(** X14.  On the premium path, when [insert_rows_json] reports row errors
    for an object, [RuntimeError] carrying these errors is raised to the
    caller, and none of the object's records is in the staging table. *)
Theorem premium_row_errors_are_raised
    bucket_name project_id dataset temp_table nombre resto contenido datos
    err errs fs w :
  let r :=
    cargar_archivos_en_tabla_temporal_v_premium bucket_name
      (VList (VStr nombre :: resto)) project_id dataset temp_table w in
  endswith nombre ".json" = true →
  served w → contenido_de w bucket_name nombre = Some contenido →
  json_loads contenido = Ok (VList datos) →
  tail (faults w) = Rejects (err :: errs) :: fs →
  r.1 = Raise (RuntimeError_insertar nombre (err :: errs)) ∧
  bq r.2 = bq w.
Proof.
  intros r Hj Hs Hc Hd Hf. unfold r.
  erewrite premium_loader_step_raise;
    [|by eapply premium_rows_rejected]. done.
Qed.

(** X15.  On the premium path a list element that is [None], a boolean, a
    number, a list or a dict (the values a JSON document holds besides
    strings, and the values [value] covers) has no [endswith]: the loader
    raises [AttributeError] at that element, prints the error as its last
    line, and sends no request and changes no table for it; the elements
    after it are not processed. *)
Theorem premium_element_must_be_str
    bucket_name project_id dataset temp_table archivo resto w :
  let r :=
    cargar_archivos_en_tabla_temporal_v_premium bucket_name
      (VList (archivo :: resto)) project_id dataset temp_table w in
  (∀ s, archivo ≠ VStr s) →
  ∃ msg,
    r.1 = Raise (AttributeError msg) ∧
    calls r.2 = calls w ∧ bq r.2 = bq w ∧
    last (stdout r.2)
    = Some (Error_al_procesar_el_archivo archivo (AttributeError msg)).
Proof.
  intros r Hno. unfold r.
  rewrite (premium_loader_step_raise _ _ _ _ _ _
             (AttributeError "object has no attribute 'endswith'")
             _ (con_linea
                  (Contenido_de_archivos_recibido (VList (archivo :: resto)))
                  (con_linea (Tipo_de_archivos_recibido "list") w))).
  - simpl. eexists. repeat split. by rewrite last_snoc.
  - unfold cargar_un_archivo_v_premium, como_nombre.
    destruct archivo as [| | | |nombre| |]; try reflexivity.
    by destruct (Hno nombre).
Qed.

End LoaderEdges.

Lemma premium_json_root_must_be_array_witness :
  let mundo_objeto :=
    mkWorld {[ "cubo" := [("uno.json", texto_objeto "1")] ]}
      {[ "p.d.temp" := [] ]} 0 [] [] [] in
  (cargar_archivos_en_tabla_temporal_v_premium "cubo" (py_list ["uno.json"])
     "p" "d" "temp" mundo_objeto).1
  = Raise (ValueError_no_es_array "uno.json").
Proof.
  intros mundo_objeto.
  pose proof (premium_json_root_must_be_array "cubo" "p" "d" "temp" "uno.json"
                [] (texto_objeto "1") (objeto 1) mundo_objeto) as Hthm.
  destruct (Hthm eq_refl I eq_refl eq_refl) as [Hrun _];
    [discriminate|exact Hrun].
Defined.

Lemma premium_row_errors_are_raised_witness :
  (cargar_archivos_en_tabla_temporal_v_premium "cubo"
     (py_list ["bueno.json"; "vacio.json"]) "p" "d" "temp"
     (mkWorld (gcs mundo_de_carga) (bq mundo_de_carga) 100
        [Served; Rejects [VStr "no such field: id"]] [] [])).1
  = Raise (RuntimeError_insertar "bueno.json" [VStr "no such field: id"]).
Proof.
  pose proof (premium_row_errors_are_raised "cubo" "p" "d" "temp" "bueno.json"
                [VStr "vacio.json"] un_array [objeto 1; objeto 2]
                (VStr "no such field: id") [] []
                (mkWorld (gcs mundo_de_carga) (bq mundo_de_carga) 100
                   [Served; Rejects [VStr "no such field: id"]] [] []))
    as Hthm.
  destruct (Hthm eq_refl I eq_refl eq_refl eq_refl) as [Hrun _].
  exact Hrun.
Defined.

Lemma premium_element_must_be_str_witness :
  calls (cargar_archivos_en_tabla_temporal_v_premium "cubo"
           (VList [VInt 7; VStr "bueno.json"]) "p" "d" "temp" mundo_de_carga).2
  = [].
Proof.
  destruct (premium_element_must_be_str "cubo" "p" "d" "temp" (VInt 7)
              [VStr "bueno.json"] mundo_de_carga)
    as (msg & _ & Hcalls & _);
    [discriminate|exact Hcalls].
Defined.

(** ** What the loaders stage when the services answer *)

Lemma for_each_cons_ok {A} (body : A → M unit) x l w :
  (body x w).1 = Ok tt →
  for_each body (x :: l) w = for_each body l (body x w).2.
Proof.
  intros Hok. simpl. unfold bind.
  by destruct (body x w) as [[[]|e] w1]; simpl in *.
Qed.

Lemma for_each_cons_raise {A} (body : A → M unit) x l w e :
  (body x w).1 = Raise e →
  for_each body (x :: l) w = (Raise e, (body x w).2).
Proof.
  intros Hr. simpl. unfold bind.
  destruct (body x w) as [[[]|e'] w1]; simpl in *; congruence.
Qed.

Section LoaderSemanticsProperties.
Context `{!Decoders} `{!Clients}.

Lemma registros_plain_gcs w w' bucket_name nombre :
  gcs w' = gcs w →
  registros_plain w' bucket_name nombre = registros_plain w bucket_name nombre.
Proof. unfold registros_plain, contenido_de. by intros ->. Qed.

Lemma registros_premium_gcs w w' bucket_name nombre :
  gcs w' = gcs w →
  registros_premium w' bucket_name nombre
  = registros_premium w bucket_name nombre.
Proof. unfold registros_premium, contenido_de. by intros ->. Qed.

Lemma fmap_registros_plain_gcs w w' bucket_name (names : list string) :
  gcs w' = gcs w →
  registros_plain w' bucket_name <$> names
  = registros_plain w bucket_name <$> names.
Proof.
  intros Hg. apply list_fmap_ext. intros i n Hn.
  by apply registros_plain_gcs.
Qed.

Lemma fmap_registros_premium_gcs w w' bucket_name (names : list string) :
  gcs w' = gcs w →
  registros_premium w' bucket_name <$> names
  = registros_premium w bucket_name <$> names.
Proof.
  intros Hg. apply list_fmap_ext. intros i n Hn.
  by apply registros_premium_gcs.
Qed.

(** One turn of the plain loop when no fault is scheduled. *)
Lemma cargar_iteracion_sin_fallos
    bucket_name project_id dataset temp_table nombre w :
  let table_id := table_id_of project_id dataset temp_table in
  let w' :=
    (cargar_iteracion bucket_name project_id dataset temp_table (VStr nombre)
       w).2 in
  faults w = [] →
  faults w' = [] ∧ gcs w' = gcs w ∧
  filas (bq w') table_id
  = filas (bq w) table_id ++ registros_plain w bucket_name nombre.
Proof.
  intros table_id w' Hf. unfold w'. clear w'.
  rewrite cargar_iteracion_outcome.
  unfold cargar_un_archivo, como_nombre, registros_plain, contenido_de, filas.
  fold table_id. destruct w as [g b n f c s]. simpl in Hf. subst f.
  run_world.
  destruct (g !! bucket_name) as [objects|]; simpl;
    [|by rewrite app_nil_r].
  destruct (list_find _ objects) as [[i [nm contenido]]|]; simpl;
    [|by rewrite app_nil_r].
  destruct (pd_read_json_lines contenido) as [df|e]; simpl;
    [|by rewrite app_nil_r].
  destruct (df_empty df); simpl; [by rewrite app_nil_r|].
  by rewrite lookup_insert_eq.
Qed.

Lemma plain_loop_sin_fallos bucket_name project_id dataset temp_table names w :
  let table_id := table_id_of project_id dataset temp_table in
  let w' :=
    (for_each (cargar_iteracion bucket_name project_id dataset temp_table)
       (VStr <$> names) w).2 in
  faults w = [] →
  faults w' = [] ∧ gcs w' = gcs w ∧
  filas (bq w') table_id
  = filas (bq w) table_id ++ concat (registros_plain w bucket_name <$> names).
Proof.
  intros table_id. subst table_id. revert w.
  induction names as [|nombre names IH]; intros w.
  - simpl. intros Hf. by rewrite app_nil_r.
  - intros w' Hf. unfold w'. clear w'.
    rewrite fmap_cons, for_each_cons_ok
      by apply cargar_iteracion_never_raises.
    destruct (cargar_iteracion_sin_fallos bucket_name project_id dataset
                temp_table nombre w Hf) as (Hf1 & Hg1 & Hrows1).
    destruct (IH _ Hf1) as (Hf2 & Hg2 & Hrows2).
    split; [done|]. split; [congruence|].
    rewrite Hrows2, Hrows1. simpl. rewrite <- app_assoc.
    by rewrite (fmap_registros_plain_gcs w _ _ _ Hg1).
Qed.

(** X16.  What the plain loader stages when its clients are built and the
    services answer: the staging table then holds its former rows followed
    by the records of the listed objects, object after object in the order
    of the list, where an object that is missing, that the decoder rejects
    or that decodes to an empty frame contributes nothing. *)
Theorem plain_loader_stages_records_in_order
    bucket_name project_id dataset temp_table names w :
  let staging := table_id_of project_id dataset temp_table in
  let r :=
    cargar_archivos_en_tabla_temporal bucket_name (py_list names) project_id
      dataset temp_table w in
  clientes_disponibles → faults w = [] →
  r.1 = Ok tt ∧
  filas (bq r.2) staging
  = filas (bq w) staging ++ concat (registros_plain w bucket_name <$> names).
Proof.
  intros staging r Hcl Hf. unfold r, py_list.
  rewrite plain_loader_on_list by done. split.
  - apply for_each_never_raises. intros. apply cargar_iteracion_never_raises.
  - by destruct (plain_loop_sin_fallos bucket_name project_id dataset
                   temp_table names w Hf) as (_ & _ & Hrows).
Qed.

(** One turn of the premium loop when no fault is scheduled and the staging
    table exists. *)
Lemma cargar_iteracion_v_premium_sin_fallos
    bucket_name table_id temp_table nombre old w :
  let r :=
    cargar_iteracion_v_premium bucket_name table_id temp_table (VStr nombre) w in
  faults w = [] → bq w !! table_id = Some old →
  faults r.2 = [] ∧ gcs r.2 = gcs w ∧
  match registros_premium w bucket_name nombre with
  | Some datos => r.1 = Ok tt ∧ bq r.2 !! table_id = Some (old ++ datos)
  | None => (∃ e, r.1 = Raise e) ∧ bq r.2 = bq w
  end.
Proof.
  intros r Hf Hold. unfold r. clear r.
  rewrite cargar_iteracion_v_premium_outcome.
  unfold cargar_un_archivo_v_premium, como_nombre, leer_datos,
    registros_premium, registros_de_frame, contenido_de.
  destruct w as [g b n f c s]. simpl in Hf, Hold. subst f.
  run_world.
  destruct (es_directorio nombre); simpl.
  { rewrite app_nil_r. auto. }
  destruct (endswith nombre ".json"); simpl.
  { destruct (g !! bucket_name) as [objects|]; simpl; [|eauto 6].
    destruct (list_find _ objects) as [[i [nm contenido]]|]; simpl;
      [|eauto 6].
    destruct (json_loads contenido) as [[| | | | |datos|]|e]; simpl;
      eauto 6.
    rewrite Hold. simpl. by rewrite lookup_insert_eq. }
  destruct (endswith nombre ".parquet"); simpl.
  { destruct (g !! bucket_name) as [objects|]; simpl; [|eauto 6].
    destruct (list_find _ objects) as [[i [nm contenido]]|]; simpl;
      [|eauto 6].
    destruct (pd_read_parquet contenido) as [df|e]; simpl; eauto 6.
    rewrite Hold. simpl. by rewrite lookup_insert_eq. }
  destruct (endswith nombre ".pkl"); simpl.
  { destruct (g !! bucket_name) as [objects|]; simpl; [|eauto 6].
    destruct (list_find _ objects) as [[i [nm contenido]]|]; simpl;
      [|eauto 6].
    destruct (pd_read_pickle contenido) as [df|e]; simpl; eauto 6.
    rewrite Hold. simpl. by rewrite lookup_insert_eq. }
  rewrite app_nil_r. auto.
Qed.

Lemma premium_loop_sin_fallos bucket_name table_id temp_table names old w :
  let r :=
    for_each (cargar_iteracion_v_premium bucket_name table_id temp_table)
      (VStr <$> names) w in
  let lotes := registros_premium w bucket_name <$> names in
  faults w = [] → bq w !! table_id = Some old →
  bq r.2 !! table_id = Some (old ++ lotes_hasta_fallo lotes) ∧
  (r.1 = Ok tt ↔ Forall is_Some lotes).
Proof.
  revert old w. induction names as [|nombre names IH]; intros old w.
  - simpl. intros Hf Hold. rewrite app_nil_r. split; [done|].
    split; [by constructor|done].
  - intros r lotes Hf Hold. unfold r, lotes. clear r lotes.
    rewrite !fmap_cons.
    destruct (cargar_iteracion_v_premium_sin_fallos bucket_name table_id
                temp_table nombre old w Hf Hold) as (Hf1 & Hg1 & Hturn).
    destruct (registros_premium w bucket_name nombre) as [datos|] eqn:Hreg.
    + destruct Hturn as [Hok Hrows].
      rewrite for_each_cons_ok by exact Hok.
      destruct (IH _ _ Hf1 Hrows) as [Hrows2 Hiff].
      split.
      * rewrite Hrows2. simpl. rewrite <- app_assoc.
        by rewrite (fmap_registros_premium_gcs w _ _ _ Hg1).
      * rewrite Hiff, Forall_cons.
        rewrite (fmap_registros_premium_gcs w _ _ _ Hg1).
        split; [by split|by intros [_ ?]].
    + destruct Hturn as [[e Hraise] Hbq].
      rewrite (for_each_cons_raise _ _ _ _ e) by exact Hraise.
      simpl. rewrite Hbq, Hold, app_nil_r. split; [done|].
      rewrite Forall_cons. split; [done|].
      intros [[x Hx] _]. discriminate.
Qed.

(** X17.  What the premium loader stages when the services answer and the
    staging table exists: the staging table then holds its former rows
    followed by the records of the listed objects in the order of the list,
    up to the first object it fails on (a missing object, a payload the
    decoder rejects, a JSON root that is not an array); directory markers
    and unsupported suffixes contribute nothing.  The loader returns
    normally exactly when it fails on no object. *)
Theorem premium_loader_stages_records_until_failure
    bucket_name project_id dataset temp_table names old w :
  let staging := table_id_of project_id dataset temp_table in
  let r :=
    cargar_archivos_en_tabla_temporal_v_premium bucket_name (py_list names)
      project_id dataset temp_table w in
  let lotes := registros_premium w bucket_name <$> names in
  names ≠ [] → faults w = [] → bq w !! staging = Some old →
  bq r.2 !! staging = Some (old ++ lotes_hasta_fallo lotes) ∧
  (r.1 = Ok tt ↔ Forall is_Some lotes).
Proof.
  intros staging r lotes Hne Hf Hold. unfold r, py_list.
  rewrite premium_loader_on_list by (by destruct names).
  by apply premium_loop_sin_fallos.
Qed.

End LoaderSemanticsProperties.

Lemma plain_loader_stages_records_in_order_witness :
  filas (bq (cargar_archivos_en_tabla_temporal "cubo"
               (py_list ["lineas.json"; "malo.json"; "nada.json"; "lineas.csv"])
               "p" "d" "temp" mundo_de_carga).2) (table_id_of "p" "d" "temp")
  = [objeto 1; objeto 2; objeto 1; objeto 2].
Proof.
  pose proof (plain_loader_stages_records_in_order "cubo" "p" "d" "temp"
                ["lineas.json"; "malo.json"; "nada.json"; "lineas.csv"]
                mundo_de_carga) as Hthm.
  destruct (Hthm (conj (fun _ => eq_refl) (conj eq_refl eq_refl)) eq_refl)
    as [_ Hrows].
  rewrite Hrows. vm_compute. reflexivity.
Defined.

Lemma premium_loader_stages_records_until_failure_witness :
  bq (cargar_archivos_en_tabla_temporal_v_premium "cubo"
        (py_list ["carpeta/"; "bueno.json"; "lineas.csv"; "malo.json";
                  "bueno.json"])
        "p" "d" "temp" mundo_de_carga).2 !! table_id_of "p" "d" "temp"
  = Some [objeto 1; objeto 2].
Proof.
  assert (["carpeta/"; "bueno.json"; "lineas.csv"; "malo.json"; "bueno.json"]
          ≠ []) as Hne by discriminate.
  destruct (premium_loader_stages_records_until_failure "cubo" "p" "d" "temp"
              ["carpeta/"; "bueno.json"; "lineas.csv"; "malo.json";
               "bueno.json"] [] mundo_de_carga Hne eq_refl eq_refl)
    as [Hrows _].
  rewrite Hrows. vm_compute. reflexivity.
Defined.

(** ** The staging round trip *)


Section PipelineRun.
Context `{!Decoders} `{!Clients}.





End PipelineRun.


(** ** Directory markers, spelled out *)

Lemma string_app_cons a (s1 s2 : string) :
  String a s1 +:+ s2 = String a (s1 +:+ s2).
Proof. reflexivity. Qed.

Lemma string_app_assoc (s1 s2 s3 : string) :
  (s1 +:+ s2) +:+ s3 = s1 +:+ (s2 +:+ s3).
Proof.
  induction s1 as [|a s1 IH]; [done|].
  by rewrite !string_app_cons, IH.
Qed.

Lemma string_rev_app_spec (s1 s2 : string) :
  String.rev_app s1 s2 = String.rev s1 +:+ s2.
Proof.
  revert s2. induction s1 as [|a s1 IH]; intros s2; [done|].
  unfold String.rev. simpl. rewrite !IH. by rewrite string_app_assoc.
Qed.

Lemma string_rev_cons a (s : string) :
  String.rev (String a s) = String.rev s +:+ String a "".
Proof. unfold String.rev at 1. simpl. apply string_rev_app_spec. Qed.

Lemma string_rev_snoc (s : string) a :
  String.rev (s +:+ String a "") = String a (String.rev s).
Proof.
  induction s as [|b s IH]; [done|].
  by rewrite string_app_cons, !string_rev_cons, IH.
Qed.

Lemma string_rev_involutive (s : string) : String.rev (String.rev s) = s.
Proof.
  induction s as [|a s IH]; [done|].
  by rewrite string_rev_cons, string_rev_snoc, IH.
Qed.

(** X19.  [es_directorio] holds of exactly the names whose last character is
    the slash: the names that are some string, possibly empty, followed by
    ["/"].  A slash elsewhere in the name does not make it a directory
    marker. *)
Theorem es_directorio_iff_trailing_slash (name : string) :
  es_directorio name = true ↔ ∃ carpeta, name = carpeta +:+ "/".
Proof.
  unfold es_directorio, endswith.
  change (String.rev "/") with (String "/"%char "").
  split.
  - intros Hp. exists (String.rev (match String.rev name with
                                   | String _ r => r
                                   | EmptyString => EmptyString
                                   end)).
    destruct (String.rev name) as [|c r] eqn:Hrev; [done|].
    rewrite prefix_String in Hp. destruct (ascii_dec "/" c); [subst c|done].
    rewrite <- (string_rev_involutive name), Hrev.
    by rewrite string_rev_cons.
  - intros [carpeta ->]. rewrite string_rev_snoc, prefix_String.
    destruct (ascii_dec "/" "/"); [|done]. by destruct (String.rev carpeta).
Qed.
